(** * Position-aware template filling of [main_original.py]

    A shallow embedding of the positional subsystem of
    [EnhancedAIDocGenerator]: the key decoder [_parse_position_key], the
    match predicate [_is_position_match], the cell filler
    [_fill_cell_by_position], the fallback mapper [_fallback_field_mapping],
    the unfilled-field report [_validate_unfilled_fields] and the scan of
    [stage3_position_aware_template_filling].

    Conventions.
    - A Python [str] is a [string]; non-ASCII text is its UTF-8 byte
      sequence, on which [split], [join] and [in] agree with Python's
      code-point versions.  Lengths, slices, whitespace and digits go by
      code points: [len], [s[:n]], [strip] and [int] read the characters
      of the string.
    - A Python [int] is a [Z].
    - A [dict] is an association list in insertion order.
    - A Python call either returns a value or raises: [result]. *)

From Stdlib Require Import List String Ascii ZArith NArith Bool Lia Arith.
Import ListNotations.

Local Open Scope string_scope.
Local Open Scope Z_scope.

Set Implicit Arguments.

(** ** Exceptions and results *)

Inductive exn : Type :=
| ValueError
| IndexError
| KeyError.

Inductive result (A : Type) : Type :=
| Returned (a : A)
| Raised (e : exn).

Arguments Returned {A} a.
Arguments Raised {A} e.

Definition rbind {A B} (r : result A) (k : A -> result B) : result B :=
  match r with
  | Returned a => k a
  | Raised e => Raised e
  end.

Notation "x <- r ;; k" := (rbind r (fun x => k))
  (at level 61, r at next level, right associativity).

(** ** UTF-8 *)

Module Utf8.

Definition byte (a : ascii) : N := N_of_ascii a.

Definition is_continuation (a : ascii) : bool :=
  ((128 <=? byte a) && (byte a <? 192))%N.

Definition starts_with_continuation (g : string) : bool :=
  match g with
  | String a _ => is_continuation a
  | EmptyString => false
  end.

(** The characters of a string, each as the bytes that encode it: a lead
    byte with the continuation bytes after it. *)
Fixpoint chars (s : string) : list string :=
  match s with
  | EmptyString => []
  | String a s' =>
      match chars s' with
      | g :: gs =>
          if starts_with_continuation g then String a g :: gs
          else String a "" :: g :: gs
      | [] => [String a ""]
      end
  end.

(** The code point that the bytes of one character encode; [None] for
    bytes that encode none. *)
Definition code_point (g : string) : option N :=
  match g with
  | String a EmptyString =>
      if (byte a <? 128)%N then Some (byte a) else None
  | String a (String b EmptyString) =>
      if ((192 <=? byte a) && (byte a <? 224))%N then
        let n := ((byte a - 192) * 64 + (byte b - 128))%N in
        if (128 <=? n)%N then Some n else None
      else None
  | String a (String b (String c EmptyString)) =>
      if ((224 <=? byte a) && (byte a <? 240))%N then
        let n := (((byte a - 224) * 64 + (byte b - 128)) * 64
                  + (byte c - 128))%N in
        if (2048 <=? n)%N then Some n else None
      else None
  | String a (String b (String c (String d EmptyString))) =>
      if ((240 <=? byte a) && (byte a <? 248))%N then
        let n := ((((byte a - 240) * 64 + (byte b - 128)) * 64
                   + (byte c - 128)) * 64 + (byte d - 128))%N in
        if ((65536 <=? n) && (n <=? 1114111))%N then Some n else None
      else None
  | _ => None
  end.

End Utf8.

(** ** Python strings *)

Module PyStr.

(** [sep.join(parts)] *)
Fixpoint join (sep : string) (parts : list string) : string :=
  match parts with
  | [] => ""
  | [p] => p
  | p :: rest => p ++ sep ++ join sep rest
  end.

(** [s.split(c)] for a one-character separator: never the empty list. *)
Fixpoint split (c : ascii) (s : string) : list string :=
  match s with
  | EmptyString => [""]
  | String a s' =>
      if Ascii.eqb a c then "" :: split c s'
      else match split c s' with
           | [] => [String a ""]
           | p :: ps => String a p :: ps
           end
  end.

(** [needle in hay] *)
Fixpoint contains (needle hay : string) : bool :=
  String.prefix needle hay ||
  match hay with
  | EmptyString => false
  | String _ hay' => contains needle hay'
  end.

Fixpoint drop_while {A} (p : A -> bool) (l : list A) : list A :=
  match l with
  | [] => []
  | a :: l' => if p a then drop_while p l' else l
  end.

(** The code points for which [str.isspace] holds. *)
Definition space_code_points : list N :=
  [ 9; 10; 11; 12; 13; 28; 29; 30; 31; 32; 133; 160; 5760;
    8192; 8193; 8194; 8195; 8196; 8197; 8198; 8199; 8200; 8201; 8202;
    8232; 8233; 8239; 8287; 12288 ]%N.

Definition is_space_code_point (n : N) : bool :=
  existsb (N.eqb n) space_code_points.

Definition is_space (g : string) : bool :=
  match Utf8.code_point g with
  | Some n => is_space_code_point n
  | None => false
  end.

(** [s.strip()] *)
Definition strip (s : string) : string :=
  String.concat ""
    (rev (drop_while is_space (rev (drop_while is_space (Utf8.chars s))))).

(** [len(s)] *)
Definition len (s : string) : nat := List.length (Utf8.chars s).

(** [s[:n]] *)
Definition take (n : nat) (s : string) : string :=
  String.concat "" (firstn n (Utf8.chars s)).

(** [s.split(sep)[0]]: the text before the first occurrence of [sep],
    the whole of [s] when [sep] does not occur. *)
Fixpoint before_first (sep s : string) : string :=
  if String.prefix sep s then ""
  else match s with
       | EmptyString => ""
       | String a s' => String a (before_first sep s')
       end.

(** Truth value of a string: non-empty. *)
Definition truthy (s : string) : bool :=
  match s with
  | EmptyString => false
  | _ => true
  end.

(** The code points of the digits zero of Unicode 14: each is followed by
    the digits one to nine of its script. *)
Definition decimal_zeros : list N :=
  [ 48; 1632; 1776; 1984; 2406; 2534; 2662; 2790; 2918; 3046; 3174; 3302;
    3430; 3558; 3664; 3792; 3872; 4160; 4240; 6112; 6160; 6470; 6608; 6784;
    6800; 6992; 7088; 7232; 7248; 42528; 43216; 43264; 43472; 43504; 43600;
    44016; 65296; 66720; 68912; 69734; 69872; 69942; 70096; 70384; 70736;
    70864; 71248; 71360; 71472; 71904; 72016; 72784; 73040; 73120; 92768;
    92864; 93008; 120782; 120792; 120802; 120812; 120822; 123200; 123632;
    125264; 130032 ]%N.

(** The value of a decimal digit. *)
Definition decimal_value (n : N) : option N :=
  match find (fun zero => (zero <=? n) && (n <? zero + 10))%N decimal_zeros with
  | Some zero => Some (n - zero)%N
  | None => None
  end.

(** What [int] makes of one character before it reads the numeral: an ASCII
    character stands for itself, another space for a blank, another decimal
    digit for its ASCII digit; no other character is accepted. *)
Definition ascii_image (g : string) : option N :=
  match Utf8.code_point g with
  | None => None
  | Some n =>
      if (n <? 127)%N then Some n
      else if is_space_code_point n then Some 32%N
      else match decimal_value n with
           | Some d => Some (48 + d)%N
           | None => None
           end
  end.

Fixpoint ascii_images (gs : list string) : option (list N) :=
  match gs with
  | [] => Some []
  | g :: gs' =>
      match ascii_image g, ascii_images gs' with
      | Some n, Some ns => Some (n :: ns)
      | _, _ => None
      end
  end.

(** The blanks that may surround the numeral. *)
Definition is_blank (n : N) : bool :=
  ((9 <=? n) && (n <=? 13) || (n =? 32))%N.

(** The digits of the numeral, single underscores allowed between two
    digits: the value, the number of digits and what follows them.
    [after_underscore] holds at the start and after an underscore, where a
    digit has to come. *)
Fixpoint scan_digits (acc : Z) (count : nat) (after_underscore : bool)
    (l : list N) : option (Z * nat * list N) :=
  match l with
  | [] => if after_underscore then None else Some (acc, count, [])
  | n :: l' =>
      if ((48 <=? n) && (n <=? 57))%N then
        scan_digits (10 * acc + (Z.of_N n - 48)) (S count) false l'
      else if (n =? 95)%N then
        if after_underscore then None else scan_digits acc count true l'
      else if after_underscore then None
      else Some (acc, count, l)
  end.

(** The most digits [int] reads, as the interpreter is started. *)
Definition max_str_digits : nat := 4300.

(** [int(s)] in base ten: blanks, one optional sign, the digits, blanks;
    anything else is a [ValueError], and so is a numeral of more than
    [max_str_digits] digits. *)
Definition py_int (s : string) : result Z :=
  match ascii_images (Utf8.chars s) with
  | None => Raised ValueError
  | Some l =>
      let l1 := drop_while is_blank l in
      let (negative, l2) :=
        match l1 with
        | n :: l' =>
            if (n =? 45)%N then (true, l')
            else if (n =? 43)%N then (false, l')
            else (false, l1)
        | [] => (false, l1)
        end in
      match scan_digits 0 0 true l2 with
      | None => Raised ValueError
      | Some (value, count, rest) =>
          if forallb is_blank rest then
            if (max_str_digits <? count)%nat then Raised ValueError
            else Returned (if negative then - value else value)
          else Raised ValueError
      end
  end.

End PyStr.

(** ** Python lists *)

(** The place [l[i]] names in a list of [n] elements, with Python's
    negative indices. *)
Definition py_index (n : nat) (i : Z) : result nat :=
  let len := Z.of_nat n in
  let j := if i <? 0 then i + len else i in
  if (j <? 0) || (len <=? j) then Raised IndexError
  else Returned (Z.to_nat j).

(** [l[i]] *)
Definition py_getitem {A} (l : list A) (i : Z) : result A :=
  j <- py_index (List.length l) i ;;
  match nth_error l j with
  | Some a => Returned a
  | None => Raised IndexError
  end.

(** [l[i] = f(l[i])]: the element at index [i] replaced in place. *)
Fixpoint list_update {A} (l : list A) (i : nat) (f : A -> A) : list A :=
  match l, i with
  | [], _ => []
  | a :: l', O => f a :: l'
  | a :: l', S i' => a :: list_update l' i' f
  end.

(** ** Python dicts, in insertion order *)

Definition dict (V : Type) : Type := list (string * V).

Fixpoint dict_get {V} (d : dict V) (k : string) : option V :=
  match d with
  | [] => None
  | (k', v) :: d' => if String.eqb k' k then Some v else dict_get d' k
  end.

(** [d[k] = v]: an existing key keeps its place. *)
Fixpoint dict_set {V} (d : dict V) (k : string) (v : V) : dict V :=
  match d with
  | [] => [(k, v)]
  | (k', v') :: d' =>
      if String.eqb k' k then (k', v) :: d' else (k', v') :: dict_set d' k v
  end.

Definition dict_keys {V} (d : dict V) : list string := map fst d.

(** ** Position descriptors *)

(** The dict returned by [_parse_position_key]: the [next_cell] form has no
    ['context'] entry. *)
Record position_info : Type := {
  row : Z;
  col : Z;
  context : option string;
  field_name : string;
  fill_type : string
}.

Definition next_cell : string := "next_cell".
Definition same_cell_with_context : string := "same_cell_with_context".

(** The body of the [try] block of [_parse_position_key]. *)
Definition parse_position_body (position_key : string)
  : result (option position_info) :=
  let parts := PyStr.split "_" position_key in
  if (List.length parts <? 4)%nat then Returned None
  else
    p1 <- py_getitem parts 1 ;;
    n <- PyStr.py_int p1 ;;
    let row := n - 1 in
    p2 <- py_getitem parts 2 ;;
    if String.eqb p2 "col" then
      p3 <- py_getitem parts 3 ;;
      m <- PyStr.py_int p3 ;;
      let col := m - 1 in
      let field_name := PyStr.join "_" (skipn 4 parts) in
      Returned (Some {| row := row; col := col; context := None;
                        field_name := field_name; fill_type := next_cell |})
    else if String.eqb p2 "left" then
      p3 <- py_getitem parts 3 ;;
      let field_name := PyStr.join "_" (skipn 4 parts) in
      Returned (Some {| row := row; col := -1; context := Some p3;
                        field_name := field_name;
                        fill_type := same_cell_with_context |})
    else Returned None.

(** [except (ValueError, IndexError): return None] *)
Definition _parse_position_key (position_key : string)
  : result (option position_info) :=
  match parse_position_body position_key with
  | Raised ValueError => Returned None
  | Raised IndexError => Returned None
  | r => r
  end.

(** ** Tables *)

(** Modelled from the spec: the table of the document library, which is not
    part of the repository.  A table is an ordered sequence of rows, a row an
    ordered sequence of cells; a cell exposes its current text and supports
    two mutations, "replace own text" and "append new content as an
    additional paragraph/segment without replacing existing content", either
    of which may throw.  A cell is the list of its paragraphs and its text
    joins them with newlines; every grid position is a cell of its own.

    A mutation stores its text piece by piece, the pieces being what tabs
    and line ends separate; a carriage return is a line end, and every line
    end is read back as a newline.  A piece that XML cannot hold makes the
    mutation raise, with the pieces before it stored. *)
Definition cell : Type := list string.

Definition newline : string := String "010"%char "".

(** [cell.text] *)
Definition cell_text (c : cell) : string := PyStr.join newline c.

Definition is_separator (a : ascii) : bool :=
  Ascii.eqb a "009" || Ascii.eqb a "010" || Ascii.eqb a "013".

(** A separator as it is read back. *)
Definition read_back (a : ascii) : ascii :=
  if Ascii.eqb a "009" then "009"%char else "010"%char.

(** The pieces of a text, each with the separator that ends it. *)
Fixpoint pieces (s : string) : list (string * option ascii) :=
  match s with
  | EmptyString => [("", None)]
  | String a s' =>
      if is_separator a then ("", Some a) :: pieces s'
      else match pieces s' with
           | (piece, sep) :: ps => (String a piece, sep) :: ps
           | [] => [(String a "", None)]
           end
  end.

(** The three bytes at [a] encode U+FFFE, U+FFFF or a surrogate. *)
Definition forbidden_at (a : ascii) (s' : string) : bool :=
  match s' with
  | String b (String c _) =>
      let n := (Utf8.byte a * 65536 + Utf8.byte b * 256 + Utf8.byte c)%N in
      ((n =? 15712190) || (n =? 15712191)
       || (15573120 <=? n) && (n <=? 15581119))%N
  | _ => false
  end.

(** A text that XML can hold: no control character but tab, newline and
    carriage return, no U+FFFE, no U+FFFF, no surrogate. *)
Fixpoint xml_compatible (s : string) : bool :=
  match s with
  | EmptyString => true
  | String a s' =>
      (if (128 <=? Utf8.byte a)%N then negb (forbidden_at a s')
       else (32 <=? Utf8.byte a)%N || is_separator a)
      && xml_compatible s'
  end.

(** The pieces stored one after the other: whether all of them were, and
    the text that is read back from those that were. *)
Fixpoint store_pieces (ps : list (string * option ascii)) : bool * string :=
  match ps with
  | [] => (true, "")
  | (piece, sep) :: ps' =>
      if xml_compatible piece then
        match sep with
        | None => (true, piece)
        | Some a =>
            let (stored, text) := store_pieces ps' in
            (stored, piece ++ String (read_back a) text)
        end
      else (false, "")
  end.

(** Whether the library stores all of [value], and the text it has stored
    when it stops. *)
Definition writable (value : string) : bool :=
  fst (store_pieces (pieces value)).

Definition written (value : string) : string :=
  snd (store_pieces (pieces value)).

(** How a mutation with [value] ends: it returns, or it raises the error of
    the XML library. *)
Definition write (value : string) : result unit :=
  if writable value then Returned tt else Raised ValueError.

(** The cell after [cell.text = value], whether the assignment returned or
    raised: its content is replaced by what was stored. *)
Definition set_text (value : string) (c : cell) : cell := [written value].

(** The cell after [cell.add_paragraph(value)], whether the call returned
    or raised: one more paragraph, with what was stored. *)
Definition add_paragraph (value : string) (c : cell) : cell :=
  (c ++ [written value])%list.

(** [row.cells] *)
Definition table_row : Type := list cell.

(** [table.rows] *)
Definition table : Type := list table_row.

(** [doc.tables] *)
Definition document : Type := list table.

(** ** The match predicate *)

(** [position_info['context']] *)
Definition get_context (position_info : position_info) : result string :=
  match context position_info with
  | Some c => Returned c
  | None => Raised KeyError
  end.

Definition _is_position_match (row_idx cell_idx : Z) (cell_text_ : string)
    (position_info : position_info) (row_ : table_row) : result bool :=
  if String.eqb (fill_type position_info) next_cell then
    Returned ((row_idx =? row position_info)
              && (cell_idx =? col position_info)
              && PyStr.contains (field_name position_info) cell_text_)
  else if String.eqb (fill_type position_info) same_cell_with_context then
    if (row_idx =? row position_info)
       && PyStr.contains (field_name position_info) cell_text_
    then
      if 0 <? cell_idx then
        left_cell <- py_getitem row_ (cell_idx - 1) ;;
        ctx <- get_context position_info ;;
        Returned (PyStr.contains ctx (cell_text left_cell))
      else Returned false
    else Returned false
  else Returned false.

(** ** The cell filler *)

(** The body of the [try] block of [_fill_cell_by_position].  [cell_] is the
    place in the row of the cell object handed to the function; the row after
    the body comes with its answer, also when it raises. *)
Definition fill_cell_body (cell_ : nat) (row_ : table_row) (cell_idx : Z)
    (field_value : string) (position_info : position_info)
  : result bool * table_row :=
  if String.eqb (fill_type position_info) next_cell then
    if cell_idx + 1 <? Z.of_nat (List.length row_) then
      match py_index (List.length row_) (cell_idx + 1) with
      | Returned next =>
          (_ <- write field_value ;; Returned true,
           list_update row_ next (set_text field_value))
      | Raised e => (Raised e, row_)
      end
    else (Returned false, row_)
  else if String.eqb (fill_type position_info) same_cell_with_context then
    (_ <- write field_value ;; Returned true,
     list_update row_ cell_ (add_paragraph field_value))
  else (Returned false, row_).

(** [except Exception]: logged, then [return False]. *)
Definition _fill_cell_by_position (cell_ : nat) (row_ : table_row)
    (cell_idx : Z) (field_value : string) (position_info : position_info)
  : bool * table_row :=
  match fill_cell_body cell_ row_ cell_idx field_value position_info with
  | (Returned success, row') => (success, row')
  | (Raised _, row') => (false, row')
  end.

(** ** The unfilled-field report *)

Definition arrow : string := " -> ".

(** The list [unfilled_keys] that [_validate_unfilled_fields] logs. *)
Definition _validate_unfilled_fields (template_structure : dict string)
    (filled_fields : list string) : list string :=
  let filled_field_keys := map (PyStr.before_first arrow) filled_fields in
  filter (fun key => negb (existsb (String.eqb key) filled_field_keys))
         (dict_keys template_structure).

(** ** The fill pass *)

(** What the scan of [stage3_position_aware_template_filling] mutates: the
    rows of the first table and the two report lists. *)
Record fill_state : Type := {
  rows : table;
  filled_fields : list string;
  skipped_fields : list string
}.

(** Statements of the scan: they read and change the [fill_state], and an
    exception stops them where it is raised. *)
Definition M (A : Type) : Type := fill_state -> result A * fill_state.

Definition ret {A} (a : A) : M A := fun st => (Returned a, st).

Definition mbind {A B} (m : M A) (k : A -> M B) : M B :=
  fun st =>
    match m st with
    | (Returned a, st') => k a st'
    | (Raised e, st') => (Raised e, st')
    end.

Notation "x <~ m ;; k" := (mbind m (fun x => k))
  (at level 61, m at next level, right associativity).

Definition lift {A} (r : result A) : M A := fun st => (r, st).

Fixpoint for_each {A} (l : list A) (body : A -> M unit) : M unit :=
  match l with
  | [] => ret tt
  | a :: l' => _ <~ body a ;; for_each l' body
  end.

(** The cells of the row object bound by [enumerate(table.rows)], as they
    are now. *)
Definition current_row (row_idx : nat) : M table_row :=
  fun st => (Returned (nth row_idx (rows st) []), st).

Definition store_row (row_idx : nat) (row_ : table_row) : M unit :=
  fun st =>
    (Returned tt,
     {| rows := list_update (rows st) row_idx (fun _ => row_);
        filled_fields := filled_fields st;
        skipped_fields := skipped_fields st |}).

(** [filled_fields.append(entry)] *)
Definition append_filled (entry : string) : M unit :=
  fun st =>
    (Returned tt,
     {| rows := rows st;
        filled_fields := (filled_fields st ++ [entry])%list;
        skipped_fields := skipped_fields st |}).

(** [skipped_fields.append(entry)] *)
Definition append_skipped (entry : string) : M unit :=
  fun st =>
    (Returned tt,
     {| rows := rows st;
        filled_fields := filled_fields st;
        skipped_fields := (skipped_fields st ++ [entry])%list |}).

(** The entry of [filled_fields]: the key, an arrow and the first fifty
    characters of the value. *)
Definition filled_entry (field_key field_value : string) : string :=
  field_key ++ arrow ++ PyStr.take 50 field_value
  ++ (if (50 <? PyStr.len field_value)%nat then "..." else "").

(** The entry of [skipped_fields] for a fill that returned [False]. *)
Definition skipped_entry (field_key : string) : string :=
  field_key ++ ": 填充失败".

(** The call of [_fill_cell_by_position] on the live row. *)
Definition fill_cell (row_idx cell_idx : nat) (field_value : string)
    (position_info : position_info) : M bool :=
  row_ <~ current_row row_idx ;;
  let (success, row') :=
    _fill_cell_by_position cell_idx row_ (Z.of_nat cell_idx) field_value
                           position_info in
  _ <~ store_row row_idx row' ;;
  ret success.

(** One turn of the loop over [mapped_data.items()].  The filler catches
    every exception itself, so the [except] around its call is never
    entered. *)
Definition visit_field (position_matches : dict position_info)
    (row_idx cell_idx : nat) (cell_text_ : string)
    (item : string * string) : M unit :=
  let (field_key, field_value) := item in
  if negb (PyStr.truthy field_value) then ret tt
  else
    match dict_get position_matches field_key with
    | None => ret tt
    | Some position_info =>
        row_ <~ current_row row_idx ;;
        matched <~ lift (_is_position_match (Z.of_nat row_idx)
                           (Z.of_nat cell_idx) cell_text_ position_info row_) ;;
        if (matched : bool) then
          success <~ fill_cell row_idx cell_idx field_value position_info ;;
          if (success : bool)
          then append_filled (filled_entry field_key field_value)
          else append_skipped (skipped_entry field_key)
        else ret tt
    end.

(** One turn of the loop over [enumerate(row.cells)]. *)
Definition visit_cell (mapped_data : dict string)
    (position_matches : dict position_info) (row_idx cell_idx : nat) : M unit :=
  row_ <~ current_row row_idx ;;
  let cell_text_ := PyStr.strip (cell_text (nth cell_idx row_ [])) in
  for_each mapped_data (visit_field position_matches row_idx cell_idx cell_text_).

(** One turn of the loop over [enumerate(table.rows)]. *)
Definition visit_row (mapped_data : dict string)
    (position_matches : dict position_info) (row_idx : nat) : M unit :=
  row_ <~ current_row row_idx ;;
  for_each (seq 0 (List.length row_))
           (visit_cell mapped_data position_matches row_idx).

Definition scan_table (mapped_data : dict string)
    (position_matches : dict position_info) : M unit :=
  fun st =>
    for_each (seq 0 (List.length (rows st)))
             (visit_row mapped_data position_matches) st.

(** The first loop of stage 3: the decoded keys of the fields with a value. *)
Fixpoint build_position_matches (items : dict string)
    (position_matches : dict position_info) : result (dict position_info) :=
  match items with
  | [] => Returned position_matches
  | (key, value) :: items' =>
      if PyStr.truthy value then
        parsed <- _parse_position_key key ;;
        match parsed with
        | Some position_info =>
            build_position_matches items'
              (dict_set position_matches key position_info)
        | None => build_position_matches items' position_matches
        end
      else build_position_matches items' position_matches
  end.

(** What a call of stage 3 leaves behind: its return value, the document
    written to [output_path] if any, the document in memory, the two report
    lists and the unfilled keys it logs. *)
Record fill_report : Type := {
  returned : bool;
  saved : option document;
  in_memory : document;
  filled : list string;
  skipped : list string;
  unfilled : list string
}.

Definition failure (doc : document) (st : fill_state) : fill_report :=
  {| returned := false; saved := None; in_memory := doc;
     filled := filled_fields st; skipped := skipped_fields st;
     unfilled := [] |}.

Definition no_state : fill_state :=
  {| rows := []; filled_fields := []; skipped_fields := [] |}.

(** [template] is the document at [template_path], [None] when the path does
    not exist. *)
Definition stage3_position_aware_template_filling
    (template : option document) (mapped_data template_structure : dict string)
  : fill_report :=
  match template with
  | None => failure [] no_state
  | Some [] => failure [] no_state
  | Some ((table_ :: others) as doc) =>
      let st0 := {| rows := table_; filled_fields := [];
                    skipped_fields := [] |} in
      match build_position_matches mapped_data [] with
      | Raised _ => failure doc st0
      | Returned position_matches =>
          match scan_table mapped_data position_matches st0 with
          | (Returned _, st) =>
              let doc' := rows st :: others in
              {| returned := true; saved := Some doc'; in_memory := doc';
                 filled := filled_fields st; skipped := skipped_fields st;
                 unfilled :=
                   _validate_unfilled_fields template_structure
                                             (filled_fields st) |}
          | (Raised _, st) => failure (rows st :: others) st
          end
      end
  end.

(** ** The fallback mapper *)

Definition mapping_rules : dict (list string) :=
  [ ("serial_number", ["编号"; "number"; "id"]);
    ("project_name", ["项目名称"; "name"; "title"]);
    ("review_date", ["复核日期"; "date"; "check_date"]);
    ("original_condition_review", ["原形制"; "original_state"; "original_form"]);
    ("damage_assessment_review", ["病害和残损"; "damage"; "deterioration"]);
    ("repair_plan_review", ["修缮做法"; "repair_method"; "repair_plan"]);
    ("project_lead", ["项目负责人"; "project_manager"; "manager"; "lead"]);
    ("reviewer", ["复核人员"; "reviewers"; "checker"]) ].

(** [any(rule in template_key for rule_list in mapping_rules.values()
         for rule in rule_list)] *)
Definition any_rule_in (template_key : string) : bool :=
  existsb (fun rule => PyStr.contains rule template_key)
          (List.concat (map snd mapping_rules)).

(** The loop over [mapping_rules.items()]; its [break] leaves this loop
    only. *)
Fixpoint semantic_loop (rules : dict (list string))
    (template_key input_key input_value : string) (mapped_data : dict string)
  : dict string :=
  match rules with
  | [] => mapped_data
  | (semantic_key, possible_names) :: rules' =>
      if existsb (String.eqb input_key) possible_names
         || String.eqb input_key semantic_key
      then
        if existsb (fun name => PyStr.contains name template_key) possible_names
        then dict_set mapped_data template_key input_value
        else semantic_loop rules' template_key input_key input_value mapped_data
      else semantic_loop rules' template_key input_key input_value mapped_data
  end.

(** The loop over [input_data.items()] for one template key. *)
Fixpoint input_loop (items : dict string) (template_key : string)
    (mapped_data : dict string) : dict string :=
  match items with
  | [] => mapped_data
  | (input_key, input_value) :: items' =>
      if PyStr.truthy input_value then
        if PyStr.contains input_key template_key || any_rule_in template_key
        then dict_set mapped_data template_key input_value
        else
          input_loop items' template_key
            (semantic_loop mapping_rules template_key input_key input_value
                           mapped_data)
      else input_loop items' template_key mapped_data
  end.

Definition _fallback_field_mapping (template_structure input_data : dict string)
  : dict string :=
  fold_left (fun mapped_data template_key =>
               input_loop input_data template_key mapped_data)
            (dict_keys template_structure) [].

(** ** The properties, in the words of the specification *)

(** [needle] is a substring of [hay]. *)
Definition is_substring (needle hay : string) : Prop :=
  exists before after, hay = before ++ needle ++ after.

(** A descriptor that has a context whenever its fill type reads one, as
    every decoded descriptor does. *)
Definition well_formed (d : position_info) : Prop :=
  fill_type d = same_cell_with_context -> context d <> None.

(** The cell immediately to the left of column [cell_idx]. *)
Definition left_neighbour (row_ : table_row) (cell_idx : Z) : option cell :=
  if 0 <? cell_idx then nth_error row_ (Z.to_nat (cell_idx - 1)) else None.

(** The decoder as a function of the segments of the key. *)
Definition parse_parts (parts : list string) : result (option position_info) :=
  if (List.length parts <? 4)%nat then Returned None
  else
    n <- PyStr.py_int (nth 1 parts "") ;;
    if String.eqb (nth 2 parts "") "col" then
      m <- PyStr.py_int (nth 3 parts "") ;;
      Returned (Some {| row := n - 1; col := m - 1; context := None;
                        field_name := PyStr.join "_" (skipn 4 parts);
                        fill_type := next_cell |})
    else if String.eqb (nth 2 parts "") "left" then
      Returned (Some {| row := n - 1; col := -1;
                        context := Some (nth 3 parts "");
                        field_name := PyStr.join "_" (skipn 4 parts);
                        fill_type := same_cell_with_context |})
    else Returned None.

(** When the match predicate is to hold, for the two fill types. *)
Definition match_condition (row_idx cell_idx : Z) (cell_text_ : string)
    (d : position_info) (row_ : table_row) : Prop :=
  (fill_type d = next_cell
   /\ row_idx = row d /\ cell_idx = col d
   /\ is_substring (field_name d) cell_text_)
  \/
  (fill_type d = same_cell_with_context
   /\ row_idx = row d
   /\ is_substring (field_name d) cell_text_
   /\ 0 < cell_idx
   /\ exists left_cell ctx,
        left_neighbour row_ cell_idx = Some left_cell
        /\ context d = Some ctx
        /\ is_substring ctx (cell_text left_cell)).

(** The first underscore-separated segment of a key and the others. *)
Definition first_segment (key : string) : string :=
  hd "" (PyStr.split "_" key).

Definition later_segments (key : string) : list string :=
  tl (PyStr.split "_" key).

(** The keys of the entries of [filled_fields]. *)
Definition filled_keys (filled_ : list string) : list string :=
  map (PyStr.before_first arrow) filled_.

Definition is_filled (filled_ : list string) (key : string) : bool :=
  existsb (String.eqb key) (filled_keys filled_).

(** [s] holds the character [c]. *)
Fixpoint has_char (c : ascii) (s : string) : bool :=
  match s with
  | EmptyString => false
  | String a s' => Ascii.eqb a c || has_char c s'
  end.

(** A text as it is read back once stored: its line ends are newlines. *)
Fixpoint line_ends_read_back (s : string) : string :=
  match s with
  | EmptyString => ""
  | String a s' =>
      String (if is_separator a then read_back a else a)
             (line_ends_read_back s')
  end.

(** A template key whose intended value is non-empty. *)
Definition intended_non_empty (mapped_data : dict string) (key : string)
  : bool :=
  match dict_get mapped_data key with
  | Some value => PyStr.truthy value
  | None => false
  end.

(** The unfilled set as the specification words it: the template keys with
    an intended non-empty value that are not among the filled keys. *)
Definition unfilled_as_specified (template_structure mapped_data : dict string)
    (filled_ : list string) : list string :=
  filter (fun key => intended_non_empty mapped_data key
                     && negb (is_filled filled_ key))
         (dict_keys template_structure).

(** Rule 1 of the fallback mapper, direct containment. *)
Definition direct_rule (input_key template_key : string) : bool :=
  PyStr.contains input_key template_key
  || existsb (fun group : string * list string =>
                existsb (fun synonym => PyStr.contains synonym template_key)
                        (snd group))
             mapping_rules.

(** Rule 2 of the fallback mapper, semantic match within one group. *)
Definition semantic_rule (input_key template_key : string) : bool :=
  existsb (fun group : string * list string =>
             (String.eqb input_key (fst group)
              || existsb (String.eqb input_key) (snd group))
             && existsb (fun synonym => PyStr.contains synonym template_key)
                        (snd group))
          mapping_rules.

(** A non-empty input field that satisfies one of the two rules. *)
Definition satisfies (template_key : string) (item : string * string) : bool :=
  PyStr.truthy (snd item)
  && (direct_rule (fst item) template_key
      || semantic_rule (fst item) template_key).

(** The value of the first input field, in insertion order, that satisfies
    a rule for the template key. *)
Definition first_satisfying (input_data : dict string) (template_key : string)
  : option string :=
  option_map snd (find (satisfies template_key) input_data).

(** The scan state with earlier entries put in front of its two lists. *)
Definition with_logs (f s : list string) (st : fill_state) : fill_state :=
  {| rows := rows st;
     filled_fields := (f ++ filled_fields st)%list;
     skipped_fields := (s ++ skipped_fields st)%list |}.

(** A statement that never reads the two report lists: entries put in front
    of them change neither its answer, nor its table, nor what it appends. *)
Definition log_blind {A} (m : M A) : Prop :=
  forall f s st,
    m (with_logs f s st) = (fst (m st), with_logs f s (snd (m st))).

(** The shape of a table: the number of cells of each of its rows. *)
Definition shape (t : table) : list nat := map (@List.length cell) t.

(** The coordinates of the cells of a table of shape [sh], rows from the
    top, the cells of a row from the left. *)
Definition coordinates (sh : list nat) : list (nat * nat) :=
  flat_map (fun r => map (pair r) (seq 0 (nth r sh 0%nat)))
           (seq 0 (List.length sh)).

(** The visit of the cell at a coordinate. *)
Definition visit_at (mapped_data : dict string)
    (position_matches : dict position_info) (rc : nat * nat) : M unit :=
  visit_cell mapped_data position_matches (fst rc) (snd rc).

(** A statement that keeps a property of the scan state, whether it
    returns or raises. *)
Definition keeps (P : fill_state -> Prop) {A} (m : M A) : Prop :=
  forall st, P st -> P (snd (m st)).

(** A dict of descriptors in which every key maps to what it decodes to. *)
Definition decoded_matches (position_matches : dict position_info) : Prop :=
  forall key d,
    dict_get position_matches key = Some d ->
    _parse_position_key key = Returned (Some d).

(** A field of the mapped data that takes part in the scan: it has a value
    and its key decodes to [d]. *)
Definition candidate (mapped_data : dict string) (key value : string)
    (d : position_info) : Prop :=
  In (key, value) mapped_data
  /\ PyStr.truthy value = true
  /\ _parse_position_key key = Returned (Some d).

(** The match predicate as the scan evaluates it at column [c] of the row
    of index [r], when that row is [row_]. *)
Definition matches_at (d : position_info) (r : nat) (row_ : table_row)
    (c : nat) : result bool :=
  _is_position_match (Z.of_nat r) (Z.of_nat c)
                     (PyStr.strip (cell_text (nth c row_ []))) d row_.

(** ** Further notions used by the statements *)

(** The number of occurrences of the character [c] in [s]. *)
Fixpoint count_char (c : ascii) (s : string) : nat :=
  match s with
  | EmptyString => 0
  | String a s' => (if Ascii.eqb a c then 1 else 0) + count_char c s'
  end.

(** The segment of index [i] of a key, and the number of its segments. *)
Definition segment (i : nat) (key : string) : string :=
  nth i (PyStr.split "_" key) "".

Definition segment_count (key : string) : nat :=
  List.length (PyStr.split "_" key).

(** A statement that, on every table of shape [sh], returns a value that
    satisfies [Q] and leaves a table of the same shape. *)
Definition runs_at (sh : list nat) {A} (m : M A) (Q : A -> Prop) : Prop :=
  forall st,
    shape (rows st) = sh ->
    exists a st', m st = (Returned a, st') /\ shape (rows st') = sh /\ Q a.

(** A statement that returns and leaves the scan state as it is. *)
Definition no_op (m : M unit) : Prop :=
  forall st, m st = (Returned tt, st).

(** An entry of the filled list that a candidate field accounts for. *)
Definition recorded_filled (mapped_data : dict string) (entry : string)
  : Prop :=
  exists key value d,
    candidate mapped_data key value d /\ entry = filled_entry key value.

(** An entry of the skipped list that a candidate field accounts for: a
    [next_cell] field whose label is in the last column of its row, in a
    table of shape [sh], or a field whose value the library does not
    store. *)
Definition recorded_skipped (mapped_data : dict string) (sh : list nat)
    (entry : string) : Prop :=
  exists key value d r,
    candidate mapped_data key value d
    /\ entry = skipped_entry key
    /\ ((fill_type d = next_cell
         /\ row d = Z.of_nat r
         /\ col d + 1 = Z.of_nat (nth r sh 0%nat))
        \/ writable value = false).

(** The invariant of the scan on a table of shape [sh]: the shape is kept
    and every entry of the two lists is accounted for. *)
Definition accounted (mapped_data : dict string) (sh : list nat)
    (st : fill_state) : Prop :=
  shape (rows st) = sh
  /\ Forall (recorded_filled mapped_data) (filled_fields st)
  /\ Forall (recorded_skipped mapped_data sh) (skipped_fields st).


(** ** The statistics that are logged *)

(** What [_log_mapping_statistics] computes and logs. *)
Record mapping_statistics : Type := {
  mapped_count : nat;
  template_count : nat;
  input_count : nat;
  mapped_with_values : nat;
  unmapped_template : list string;
  unused_input : list string
}.

Definition _log_mapping_statistics
    (template_structure input_data mapped_data : dict string)
  : mapping_statistics :=
  let used_input_values := map snd mapped_data in
  {| mapped_count := List.length mapped_data;
     template_count := List.length template_structure;
     input_count := List.length input_data;
     mapped_with_values :=
       List.length (filter (fun item => PyStr.truthy (snd item)) mapped_data);
     unmapped_template :=
       filter (fun key =>
                 match dict_get mapped_data key with
                 | None => true
                 | Some value => negb (PyStr.truthy value)
                 end)
              (dict_keys template_structure);
     unused_input :=
       map fst
           (filter (fun item =>
                      PyStr.truthy (snd item)
                      && negb (existsb (String.eqb (snd item))
                                       used_input_values))
                   input_data) |}.

(** The counters of [_log_field_statistics]. *)
Record field_types : Type := {
  basic_info : nat;
  review_situation : nat;
  personnel : nat;
  other : nat
}.

Definition any_in (needles : list string) (key : string) : bool :=
  existsb (fun needle => PyStr.contains needle key) needles.

(** One turn of the loop of [_log_field_statistics]. *)
Definition count_field (counts : field_types) (key : string) : field_types :=
  if any_in ["编号"; "项目名称"; "复核日期"] key then
    {| basic_info := S (basic_info counts);
       review_situation := review_situation counts;
       personnel := personnel counts; other := other counts |}
  else if PyStr.contains "现场复核情况" key then
    {| basic_info := basic_info counts;
       review_situation := S (review_situation counts);
       personnel := personnel counts; other := other counts |}
  else if any_in ["负责人"; "复核人员"] key then
    {| basic_info := basic_info counts;
       review_situation := review_situation counts;
       personnel := S (personnel counts); other := other counts |}
  else
    {| basic_info := basic_info counts;
       review_situation := review_situation counts;
       personnel := personnel counts; other := S (other counts) |}.

Definition _log_field_statistics (template_structure : dict string)
  : field_types :=
  fold_left count_field (dict_keys template_structure)
            {| basic_info := 0; review_situation := 0; personnel := 0;
               other := 0 |}.

(** ** The conversion of the template *)

(** [s.replace(old, new)] for a non-empty [old]: the occurrences of [old]
    are replaced from the left, without overlap.  [skip] counts the
    characters of an occurrence still to be passed over. *)
Fixpoint replace_from (skip : nat) (old new s : string) : string :=
  match s with
  | EmptyString => ""
  | String a s' =>
      match skip with
      | S k => replace_from k old new s'
      | O =>
          if String.prefix old s
          then new ++ replace_from (String.length old - 1) old new s'
          else String a (replace_from 0 old new s')
      end
  end.

Definition replace (old new s : string) : string := replace_from 0 old new s.

(** The exceptions that [convert_doc_to_docx] meets. *)
Inductive py_exception : Type :=
| FileNotFoundError (message : string)
| TimeoutExpired
| RuntimeError (message : string)
| OtherException (description : string).

(** What [subprocess.run] does: the process completes with a return code
    and an error text, or the call raises. *)
Inductive run_outcome : Type :=
| Completed (returncode : Z) (stderr : string)
| Failed (e : py_exception).

Inductive outcome (A : Type) : Type :=
| Done (a : A)
| Threw (e : py_exception).

Arguments Done {A} a.
Arguments Threw {A} e.

Definition libreoffice_paths : list string :=
  [ "/Applications/LibreOffice.app/Contents/MacOS/soffice";
    "libreoffice";
    "soffice" ].

Section Conversion.

(** The file system and the programs around the generator: taken as they
    come.  [remove] and [rename] are calls that succeed. *)
Variable World : Type.
Variable path_exists : World -> string -> bool.
Variable remove : World -> string -> World.
Variable rename : World -> string -> string -> World.
Variable run : World -> list string -> run_outcome * World.
Variable dirname : string -> string.

(** The loop that looks for LibreOffice: the first candidate whose
    [--version] run returns 0. *)
Fixpoint find_libreoffice (w : World) (paths : list string)
  : outcome (option string) * World :=
  match paths with
  | [] => (Done None, w)
  | path :: paths' =>
      match run w [path; "--version"] with
      | (Completed returncode _, w') =>
          if returncode =? 0 then (Done (Some path), w')
          else find_libreoffice w' paths'
      | (Failed (FileNotFoundError _), w') => find_libreoffice w' paths'
      | (Failed TimeoutExpired, w') => find_libreoffice w' paths'
      | (Failed e, w') => (Threw e, w')
      end
  end.

Definition convert_doc_to_docx (w : World) (doc_path : string)
  : outcome string * World :=
  if negb (path_exists w doc_path) then
    (Threw (FileNotFoundError ("DOC文件不存在: " ++ doc_path)), w)
  else
    let docx_path := replace ".doc" "_converted.docx" doc_path in
    match find_libreoffice w libreoffice_paths with
    | (Threw TimeoutExpired, w1) =>
        (Threw (RuntimeError "LibreOffice转换超时"), w1)
    | (Threw e, w1) => (Threw e, w1)
    | (Done None, w1) => (Threw (RuntimeError "LibreOffice未安装或不可用"), w1)
    | (Done (Some libreoffice_cmd), w1) =>
        let w2 := if path_exists w1 docx_path then remove w1 docx_path
                  else w1 in
        let cmd := [libreoffice_cmd; "--headless"; "--convert-to"; "docx";
                    "--outdir"; dirname doc_path; doc_path] in
        match run w2 cmd with
        | (Failed TimeoutExpired, w3) =>
            (Threw (RuntimeError "LibreOffice转换超时"), w3)
        | (Failed e, w3) => (Threw e, w3)
        | (Completed returncode stderr, w3) =>
            if negb (returncode =? 0) then
              (Threw (RuntimeError ("LibreOffice转换失败: " ++ stderr)), w3)
            else
              let expected_docx := replace ".doc" ".docx" doc_path in
              if path_exists w3 expected_docx then
                let w4 := if negb (String.eqb expected_docx docx_path)
                          then rename w3 expected_docx docx_path
                          else w3 in
                (Done docx_path, w4)
              else (Threw (RuntimeError "转换后的文件未找到"), w3)
        end
    end.

End Conversion.

(** A small world to run the conversion in: the file system is the list of
    the paths that exist, and every program completes at once, creating only
    the files listed in [creates]. *)
Module SmallWorld.

Definition world : Type := list string.

Definition path_exists (w : world) (p : string) : bool :=
  existsb (String.eqb p) w.

Definition remove (w : world) (p : string) : world :=
  filter (fun q => negb (String.eqb p q)) w.

Definition rename (w : world) (a b : string) : world := b :: remove w a.

Definition is_version_probe (cmd : list string) : bool :=
  match cmd with
  | [_; flag] => String.eqb flag "--version"
  | _ => false
  end.

Definition run (creates : list string) (w : world) (cmd : list string)
  : run_outcome * world :=
  (Completed 0 "", if is_version_probe cmd then w else (creates ++ w)%list).

Definition dirname (p : string) : string := "".

End SmallWorld.

(** * Theorems *)

Example parse_col : _parse_position_key "row_3_col_2_label"
  = Returned (Some {| row := 2; col := 1; context := None;
                      field_name := "label"; fill_type := next_cell |}).
Proof. reflexivity. Qed.

Example parse_left : _parse_position_key "row_4_left_ctx_some_label"
  = Returned (Some {| row := 3; col := -1; context := Some "ctx";
                      field_name := "some_label";
                      fill_type := same_cell_with_context |}).
Proof. reflexivity. Qed.

Example parse_non_numeric : _parse_position_key "row_abc_col_2_x" = Returned None.
Proof. reflexivity. Qed.

Example parse_short : _parse_position_key "row_1_col" = Returned None.
Proof. reflexivity. Qed.


Example parse_signs : _parse_position_key "row_ 2 _col_+1_a_b"
  = Returned (Some {| row := 1; col := 0; context := None;
                      field_name := "a_b"; fill_type := next_cell |}).
Proof. reflexivity. Qed.

(** Characters, not bytes: a full-width digit is a digit for [int], an
    ideographic space is stripped, a control character that [str.isspace]
    accepts is not a blank for [int], and lengths count code points. *)
Example int_full_width_digit : PyStr.py_int "３" = Returned 3.
Proof. reflexivity. Qed.

Example int_information_separator :
  PyStr.py_int (String "028" "3") = Raised ValueError.
Proof. reflexivity. Qed.

Example parse_full_width : _parse_position_key "row_３_col_２_x"
  = Returned (Some {| row := 2; col := 1; context := None;
                      field_name := "x"; fill_type := next_cell |}).
Proof. reflexivity. Qed.

Example strip_ideographic_space : PyStr.strip "　表　" = "表".
Proof. reflexivity. Qed.

Example len_counts_code_points : PyStr.len "填充失败" = 4%nat.
Proof. reflexivity. Qed.

Example take_code_points : PyStr.take 2 "填充失败" = "填充".
Proof. reflexivity. Qed.

(** A form feed is not stored: the assignment raises and leaves the run
    with the pieces stored before it. *)
Example write_form_feed :
  write (String "012" "") = Raised ValueError
  /\ written ("a" ++ String "010" (String "012" "")) = "a" ++ newline.
Proof. split; reflexivity. Qed.

(** ** Substrings *)

Section Substrings.

Lemma prefix_app (n h : string) :
  String.prefix n h = true <-> exists after, h = n ++ after.
Proof.
  revert h; induction n as [|a n IH]; intros h; simpl.
  - destruct h; simpl; split; eauto.
  - destruct h as [|b h]; simpl.
    + split; [discriminate | intros [x Hx]; discriminate].
    + destruct (ascii_dec a b) as [->|Hab].
      * rewrite IH. split; intros [x Hx]; exists x; congruence.
      * split; [discriminate | intros [x Hx]; congruence].
Qed.

Lemma contains_unfold (n h : string) :
  PyStr.contains n h
  = String.prefix n h
    || match h with
       | EmptyString => false
       | String _ h' => PyStr.contains n h'
       end.
Proof. destruct h; reflexivity. Qed.

Lemma contains_spec (n h : string) :
  PyStr.contains n h = true <-> is_substring n h.
Proof.
  unfold is_substring. split.
  - induction h as [|c h IH]; rewrite contains_unfold, orb_true_iff;
      intros [Hp|Hc]; try discriminate.
    + apply prefix_app in Hp. destruct Hp as [x Hx]. now exists "", x.
    + apply prefix_app in Hp. destruct Hp as [x Hx]. now exists "", x.
    + destruct (IH Hc) as (b & a & ->). now exists (String c b), a.
  - intros (b & a & ->). induction b as [|c b IH].
    + rewrite contains_unfold, orb_true_iff. left.
      apply prefix_app. now exists a.
    + change (String c b ++ n ++ a) with (String c (b ++ n ++ a)).
      rewrite contains_unfold, IH. apply orb_true_r.
Qed.

Lemma contains_empty (h : string) : PyStr.contains "" h = true.
Proof. apply contains_spec. now exists "", h. Qed.

Lemma is_substring_empty (h : string) : is_substring "" h.
Proof. now exists "", h. Qed.

End Substrings.

(** ** The decoder *)

Section Decoder.

Lemma py_int_raises (s : string) (e : exn) :
  PyStr.py_int s = Raised e -> e = ValueError.
Proof.
  unfold PyStr.py_int.
  destruct (PyStr.ascii_images _) as [l|]; [|congruence].
  cbv zeta.
  destruct (match PyStr.drop_while PyStr.is_blank l with
            | [] => _
            | n :: l' => _
            end) as [negative l2].
  destruct (PyStr.scan_digits 0 0 true l2) as [[[value count] rest]|];
    [|congruence].
  destruct (forallb _ rest); [|congruence].
  destruct (_ <? _)%nat; congruence.
Qed.

Lemma py_getitem_raises {A} (l : list A) (i : Z) (e : exn) :
  py_getitem l i = Raised e -> e = IndexError.
Proof.
  unfold py_getitem, py_index.
  destruct (_ || _); simpl; [congruence|].
  destruct (nth_error l _); congruence.
Qed.

Lemma parse_position_body_raises (key : string) (e : exn) :
  parse_position_body key = Raised e -> e = ValueError \/ e = IndexError.
Proof.
  unfold parse_position_body.
  destruct (_ <? _)%nat; [discriminate|].
  repeat
    match goal with
    | |- (_ <- ?r ;; _) = Raised _ -> _ =>
        let E := fresh "E" in
        destruct r eqn:E; simpl;
        [ | intros [= <-];
            first [ right; eapply py_getitem_raises; eassumption
                  | left; eapply py_int_raises; eassumption ] ]
    | |- (if ?b then _ else _) = Raised _ -> _ => destruct b
    | |- Returned _ = Raised _ -> _ => discriminate
    end.
Qed.

End Decoder.

(** C9.  For every input string, decode returns either a descriptor or
    invalid ([None]); no exception leaves it.  The decoder is a function of
    the key alone: it reads and changes no state. *)
Theorem parse_position_key_total (key : string) :
  _parse_position_key key = Returned None
  \/ exists d, _parse_position_key key = Returned (Some d).
Proof.
  unfold _parse_position_key.
  destruct (parse_position_body key) as [[d|]|e] eqn:E; eauto.
  destruct (parse_position_body_raises _ E) as [-> | ->]; auto.
Qed.

Section DecoderShape.

Lemma py_getitem_nat {A} (l : list A) (i : nat) (d : A) :
  (i < List.length l)%nat -> py_getitem l (Z.of_nat i) = Returned (nth i l d).
Proof.
  intros Hi. unfold py_getitem, py_index. cbv zeta.
  rewrite !(proj2 (Z.ltb_ge (Z.of_nat i) 0)) by lia.
  rewrite (proj2 (Z.leb_gt (Z.of_nat (List.length l)) (Z.of_nat i))) by lia.
  unfold rbind, orb. rewrite Nat2Z.id, (nth_error_nth' l d Hi). reflexivity.
Qed.

Lemma split_not_nil (c : ascii) (s : string) : PyStr.split c s <> [].
Proof.
  destruct s as [|a s]; simpl; [discriminate|].
  destruct (Ascii.eqb a c); [discriminate|].
  destruct (PyStr.split c s); discriminate.
Qed.

Lemma split_segments (key : string) :
  PyStr.split "_" key = first_segment key :: later_segments key.
Proof.
  unfold first_segment, later_segments.
  destruct (PyStr.split "_" key) eqn:E; [|reflexivity].
  now apply split_not_nil in E.
Qed.

Lemma parse_position_body_parts (key : string) :
  parse_position_body key = parse_parts (PyStr.split "_" key).
Proof.
  unfold parse_position_body, parse_parts.
  destruct (_ <? 4)%nat eqn:E; [reflexivity|].
  apply Nat.ltb_ge in E.
  change 1 with (Z.of_nat 1). change 2 with (Z.of_nat 2).
  change 3 with (Z.of_nat 3).
  rewrite !(@py_getitem_nat _ _ _ "") by lia.
  reflexivity.
Qed.

Lemma parse_position_key_inv (key : string) (d : position_info) :
  _parse_position_key key = Returned (Some d) ->
  let parts := PyStr.split "_" key in
  (4 <= List.length parts)%nat
  /\ field_name d = PyStr.join "_" (skipn 4 parts)
  /\ exists n,
      PyStr.py_int (nth 1 parts "") = Returned n
      /\ row d = n - 1
      /\ ((nth 2 parts "" = "col"
           /\ fill_type d = next_cell /\ context d = None
           /\ exists m, PyStr.py_int (nth 3 parts "") = Returned m
                        /\ col d = m - 1)
          \/ (nth 2 parts "" = "left"
              /\ fill_type d = same_cell_with_context
              /\ context d = Some (nth 3 parts "") /\ col d = -1)).
Proof.
  unfold _parse_position_key. rewrite parse_position_body_parts.
  intros H. cbv zeta. set (parts := PyStr.split "_" key) in *.
  assert (parse_parts parts = Returned (Some d)) as Hp
      by (destruct (parse_parts parts) as [|[]]; congruence).
  clear H. unfold parse_parts in Hp.
  destruct (_ <? 4)%nat eqn:E; [discriminate|]. apply Nat.ltb_ge in E.
  destruct (PyStr.py_int (nth 1 parts "")) as [n|] eqn:En; [|discriminate].
  simpl in Hp.
  destruct (String.eqb (nth 2 parts "") "col") eqn:Ec.
  - apply String.eqb_eq in Ec.
    destruct (PyStr.py_int (nth 3 parts "")) as [m|] eqn:Em; [|discriminate].
    injection Hp as <-. simpl. repeat split; auto.
    exists n. repeat split; auto. left. repeat split; eauto.
  - destruct (String.eqb (nth 2 parts "") "left") eqn:El; [|discriminate].
    apply String.eqb_eq in El. injection Hp as <-. simpl.
    repeat split; auto. exists n. repeat split; auto.
Qed.

Lemma parse_well_formed (key : string) (d : position_info) :
  _parse_position_key key = Returned (Some d) -> well_formed d.
Proof.
  intros H. apply parse_position_key_inv in H.
  destruct H as (_ & _ & n & _ & _ & [(_ & Hf & _) | (_ & _ & Hc & _)]);
    unfold well_formed.
  - rewrite Hf. discriminate.
  - rewrite Hc. discriminate.
Qed.

End DecoderShape.

(** ** The match predicate *)

Section Matcher.

Variables (row_idx cell_idx : Z) (cell_text_ : string).
Variables (d : position_info) (row_ : table_row).

Lemma py_getitem_nonneg {A} (l : list A) (i : Z) :
  0 <= i ->
  py_getitem l i = match nth_error l (Z.to_nat i) with
                   | Some a => Returned a
                   | None => Raised IndexError
                   end.
Proof.
  intros Hi. unfold py_getitem, py_index. cbv zeta.
  rewrite !(proj2 (Z.ltb_ge i 0)) by lia. unfold orb.
  destruct (Z.of_nat (List.length l) <=? i) eqn:E; [|reflexivity].
  apply Z.leb_le in E. unfold rbind.
  rewrite (proj2 (nth_error_None l (Z.to_nat i))) by lia. reflexivity.
Qed.

Lemma match_next_cell :
  fill_type d = next_cell ->
  _is_position_match row_idx cell_idx cell_text_ d row_
  = Returned ((row_idx =? row d) && (cell_idx =? col d)
              && PyStr.contains (field_name d) cell_text_).
Proof. intros H. unfold _is_position_match. now rewrite H. Qed.

Lemma match_same_cell :
  fill_type d = same_cell_with_context ->
  _is_position_match row_idx cell_idx cell_text_ d row_
  = if (row_idx =? row d) && PyStr.contains (field_name d) cell_text_
    then
      if 0 <? cell_idx then
        match left_neighbour row_ cell_idx with
        | Some left_cell =>
            match context d with
            | Some ctx => Returned (PyStr.contains ctx (cell_text left_cell))
            | None => Raised KeyError
            end
        | None => Raised IndexError
        end
      else Returned false
    else Returned false.
Proof.
  intros H. unfold _is_position_match, left_neighbour. rewrite H.
  change (String.eqb same_cell_with_context next_cell) with false.
  rewrite String.eqb_refl. cbv iota.
  destruct (_ && _); [|reflexivity].
  destruct (0 <? cell_idx) eqn:E; [|reflexivity].
  apply Z.ltb_lt in E. rewrite py_getitem_nonneg by lia.
  destruct (nth_error row_ _); [|reflexivity].
  unfold rbind, get_context. now destruct (context d).
Qed.

Lemma match_other :
  fill_type d <> next_cell -> fill_type d <> same_cell_with_context ->
  _is_position_match row_idx cell_idx cell_text_ d row_ = Returned false.
Proof.
  intros H1 H2. unfold _is_position_match.
  apply String.eqb_neq in H1, H2. now rewrite H1, H2.
Qed.

Lemma match_true_iff :
  _is_position_match row_idx cell_idx cell_text_ d row_ = Returned true
  <-> match_condition row_idx cell_idx cell_text_ d row_.
Proof.
  unfold match_condition.
  destruct (String.eqb_spec (fill_type d) next_cell) as [Hn|Hn];
    [|destruct (String.eqb_spec (fill_type d) same_cell_with_context)
        as [Hs|Hs]].
  - rewrite (match_next_cell Hn). split.
    + intros [= H]. left.
      apply andb_true_iff in H as [H H3]. apply andb_true_iff in H as [H1 H2].
      apply Z.eqb_eq in H1, H2. apply contains_spec in H3. tauto.
    + intros [(_ & H1 & H2 & H3) | (Hs & _)].
      * apply Z.eqb_eq in H1, H2. apply contains_spec in H3.
        now rewrite H1, H2, H3.
      * rewrite Hn in Hs. discriminate.
  - rewrite (match_same_cell Hs). split.
    + intros H. right.
      destruct (_ && _) eqn:E1; [|discriminate].
      apply andb_true_iff in E1 as [H1 H2].
      apply Z.eqb_eq in H1. apply contains_spec in H2.
      destruct (0 <? cell_idx) eqn:E2; [|discriminate].
      apply Z.ltb_lt in E2.
      destruct (left_neighbour row_ cell_idx) as [left_cell|]; [|discriminate].
      destruct (context d) as [ctx|]; [|discriminate].
      injection H as H. apply contains_spec in H.
      repeat split; auto. now exists left_cell, ctx.
    + intros [(Hn' & _) | (_ & H1 & H2 & H3 & left_cell & ctx & Hl & Hc & H4)];
        [congruence|].
      apply Z.eqb_eq in H1. apply contains_spec in H2, H4.
      apply Z.ltb_lt in H3. now rewrite H1, H2, H3, Hl, Hc, H4.
  - rewrite (match_other Hn Hs). split; [discriminate|].
    intros [(H & _) | (H & _)]; contradiction.
Qed.

Lemma match_returns :
  well_formed d -> cell_idx <= Z.of_nat (List.length row_) ->
  exists b, _is_position_match row_idx cell_idx cell_text_ d row_ = Returned b.
Proof.
  intros Hw Hc.
  destruct (String.eqb_spec (fill_type d) next_cell) as [Hn|Hn];
    [|destruct (String.eqb_spec (fill_type d) same_cell_with_context)
        as [Hs|Hs]].
  - rewrite (match_next_cell Hn). eauto.
  - rewrite (match_same_cell Hs).
    destruct (_ && _); [|eauto].
    unfold left_neighbour.
    destruct (0 <? cell_idx) eqn:E; [|eauto]. apply Z.ltb_lt in E.
    destruct (nth_error row_ _) eqn:El.
    + destruct (context d) eqn:Ec; [eauto|]. now apply Hw in Hs.
    + apply nth_error_None in El. lia.
  - rewrite (match_other Hn Hs). eauto.
Qed.

End Matcher.

(** C2.  The match predicate returns true exactly when the condition of the
    descriptor's fill type holds: row, column and label for [next_cell]; row,
    label, a positive column and the context in the left neighbour for
    [same_cell_with_context].  In every other case, an unrecognised fill
    type included, it returns false, for a descriptor that has the context
    its fill type reads (as every decoded one has) at a column of the row. *)
Theorem is_position_match_spec (row_idx cell_idx : Z) (cell_text_ : string)
    (d : position_info) (row_ : table_row) :
  (_is_position_match row_idx cell_idx cell_text_ d row_ = Returned true
   <-> match_condition row_idx cell_idx cell_text_ d row_)
  /\ (well_formed d -> cell_idx <= Z.of_nat (List.length row_) ->
      ~ match_condition row_idx cell_idx cell_text_ d row_ ->
      _is_position_match row_idx cell_idx cell_text_ d row_ = Returned false).
Proof.
  split; [apply match_true_iff|].
  intros Hw Hc Hn.
  destruct (@match_returns row_idx cell_idx cell_text_ d row_ Hw Hc)
    as [[|] Hb]; [|exact Hb].
  now apply match_true_iff in Hb.
Qed.

(** The witness of C2: the descriptor of ["row_3_col_1_label"] on the row
    [label | (empty)] at row index 2. *)
Lemma is_position_match_spec_witness :
  let d := {| row := 2; col := 0; context := None; field_name := "label";
              fill_type := next_cell |} in
  let row_ := [["label"]; [""]] in
  _is_position_match 2 0 "label" d row_ = Returned true
  /\ _is_position_match 2 1 "" d row_ = Returned false.
Proof.
  intros d row_. split.
  - apply (proj1 (is_position_match_spec 2 0 "label" d row_)).
    left. repeat split. now exists "", "".
  - apply (proj2 (is_position_match_spec 2 1 "" d row_)).
    + intros H. discriminate H.
    + simpl. lia.
    + intros H.
      apply (proj1 (is_position_match_spec 2 1 "" d row_)) in H.
      discriminate H.
Defined.

(** C3, as the code has it.  The decoder never reads the first segment: two
    keys with the same later segments decode alike, so a key whose first
    segment is not ["row"] decodes as the key that has ["row"] there. *)
Theorem parse_ignores_first_segment (key key' : string) :
  later_segments key = later_segments key' ->
  _parse_position_key key = _parse_position_key key'.
Proof.
  intros H. unfold _parse_position_key.
  rewrite !parse_position_body_parts, (split_segments key),
    (split_segments key'), H.
  reflexivity.
Qed.

Lemma parse_ignores_first_segment_witness :
  later_segments "foo_1_col_2_x" = later_segments "row_1_col_2_x"
  /\ _parse_position_key "foo_1_col_2_x" = _parse_position_key "row_1_col_2_x".
Proof.
  split; [reflexivity|].
  apply (parse_ignores_first_segment "foo_1_col_2_x" "row_1_col_2_x").
  reflexivity.
Defined.

(** C3 fails at ["foo_1_col_2_x"]: the first segment is not ["row"] and a
    descriptor is returned. *)
Lemma parse_foo_key :
  first_segment "foo_1_col_2_x" <> "row"
  /\ _parse_position_key "foo_1_col_2_x"
     = Returned (Some {| row := 0; col := 1; context := None;
                         field_name := "x"; fill_type := next_cell |}).
Proof. split; [discriminate | reflexivity]. Qed.

(** C4, as the code has it.  The row of a decoded descriptor is [N - 1] for
    the integer [N] read from the second segment, whatever its sign; a
    descriptor with a negative row matches no cell, the row indices of a scan
    being non-negative. *)
Theorem parsed_row_is_decrement (key : string) (d : position_info) :
  _parse_position_key key = Returned (Some d) ->
  (exists n, PyStr.py_int (nth 1 (PyStr.split "_" key) "") = Returned n
             /\ row d = n - 1)
  /\ (row d < 0 ->
      forall row_idx cell_idx cell_text_ row_,
        0 <= row_idx ->
        _is_position_match row_idx cell_idx cell_text_ d row_ = Returned false).
Proof.
  intros H. apply parse_position_key_inv in H.
  destruct H as (_ & _ & n & Hn & Hr & Hshape). split; [eauto|].
  intros Hneg row_idx cell_idx cell_text_ row_ Hidx.
  assert ((row_idx =? row d) = false) as E by (apply Z.eqb_neq; lia).
  destruct Hshape as [(_ & Hf & _) | (_ & Hf & _)].
  - rewrite (@match_next_cell row_idx cell_idx cell_text_ d row_ Hf), E.
    reflexivity.
  - rewrite (@match_same_cell row_idx cell_idx cell_text_ d row_ Hf), E.
    reflexivity.
Qed.

Lemma parsed_row_is_decrement_witness :
  let d := {| row := -1; col := 1; context := None; field_name := "x";
              fill_type := next_cell |} in
  (exists n, PyStr.py_int (nth 1 (PyStr.split "_" "row_0_col_2_x") "")
             = Returned n /\ row d = n - 1)
  /\ _is_position_match 0 1 "x" d [["x"]; ["x"]] = Returned false.
Proof.
  intros d.
  destruct (@parsed_row_is_decrement "row_0_col_2_x" d eq_refl) as [H1 H2].
  split; [exact H1|].
  apply H2; [reflexivity | discriminate].
Defined.

(** C4 fails at ["row_0_col_2_x"]: the second segment reads as [0], which is
    not positive, and the descriptor returned has row [-1]. *)
Lemma parse_row_zero :
  PyStr.py_int (nth 1 (PyStr.split "_" "row_0_col_2_x") "") = Returned 0
  /\ _parse_position_key "row_0_col_2_x"
     = Returned (Some {| row := -1; col := 1; context := None;
                         field_name := "x"; fill_type := next_cell |}).
Proof. split; reflexivity. Qed.

(** C10.  A key of exactly four segments that decodes has an empty field
    name, which every cell text contains; the match is then the coordinate
    alone for [next_cell], the row and the left context alone for
    [same_cell_with_context]. *)
Theorem four_segments_match_on_anchor (key : string) (d : position_info) :
  List.length (PyStr.split "_" key) = 4%nat ->
  _parse_position_key key = Returned (Some d) ->
  field_name d = ""
  /\ (forall cell_text_, PyStr.contains (field_name d) cell_text_ = true)
  /\ forall row_idx cell_idx cell_text_ row_,
      (fill_type d = next_cell
       /\ (_is_position_match row_idx cell_idx cell_text_ d row_ = Returned true
           <-> row_idx = row d /\ cell_idx = col d))
      \/ (fill_type d = same_cell_with_context
          /\ (_is_position_match row_idx cell_idx cell_text_ d row_
              = Returned true
              <-> row_idx = row d /\ 0 < cell_idx
                  /\ exists left_cell ctx,
                      left_neighbour row_ cell_idx = Some left_cell
                      /\ context d = Some ctx
                      /\ is_substring ctx (cell_text left_cell))).
Proof.
  intros Hlen H. apply parse_position_key_inv in H.
  destruct H as (_ & Hname & n & _ & _ & Hshape).
  assert (field_name d = "") as Hempty.
  { rewrite Hname, skipn_all2 by lia. reflexivity. }
  split; [exact Hempty|]. split.
  { intros t. rewrite Hempty. apply contains_empty. }
  intros row_idx cell_idx cell_text_ row_.
  rewrite match_true_iff. unfold match_condition. rewrite Hempty.
  destruct Hshape as [(_ & Hf & _) | (_ & Hf & _)]; [left | right];
    (split; [exact Hf|]); rewrite Hf.
  - split.
    + intros [(_ & H1 & H2 & _) | (H & _)]; [tauto | discriminate].
    + intros [H1 H2]. left. auto using is_substring_empty.
  - split.
    + intros [(H & _) | (_ & H1 & _ & H2 & H3)]; [discriminate | tauto].
    + intros (H1 & H2 & H3). right. auto using is_substring_empty.
Qed.

Lemma four_segments_match_on_anchor_witness :
  let d := {| row := 1; col := 0; context := None; field_name := "";
              fill_type := next_cell |} in
  field_name d = ""
  /\ (forall cell_text_, PyStr.contains (field_name d) cell_text_ = true).
Proof.
  intros d.
  destruct (@four_segments_match_on_anchor "row_2_col_1" d eq_refl eq_refl)
    as (H1 & H2 & _).
  split; [exact H1 | exact H2].
Defined.

(** ** The cell filler *)

Section ListUpdate.

Context {A : Type}.
Variable f : A -> A.

Lemma list_update_length (l : list A) (i : nat) :
  List.length (list_update l i f) = List.length l.
Proof.
  revert i; induction l as [|a l IH]; intros [|i]; simpl; auto.
Qed.

Lemma list_update_same (l : list A) (i : nat) :
  nth_error (list_update l i f) i = option_map f (nth_error l i).
Proof.
  revert i; induction l as [|a l IH]; intros [|i]; simpl; auto.
Qed.

Lemma list_update_other (l : list A) (i j : nat) :
  j <> i -> nth_error (list_update l i f) j = nth_error l j.
Proof.
  revert i j; induction l as [|a l IH]; intros [|i] [|j] H; simpl; auto;
    congruence.
Qed.

End ListUpdate.

Section Writes.

Lemma pieces_not_nil (s : string) : pieces s <> [].
Proof.
  destruct s as [|a s]; cbn [pieces]; [discriminate|].
  destruct (is_separator a); [discriminate|].
  now destruct (pieces s) as [|[piece sep] ps].
Qed.

Lemma store_pieces_cons (a : ascii) (piece : string) (sep : option ascii)
    (ps : list (string * option ascii)) :
  store_pieces ((String a piece, sep) :: ps)
  = if xml_compatible (String a piece)
    then (fst (store_pieces ((piece, sep) :: ps)),
          String a (snd (store_pieces ((piece, sep) :: ps))))
    else (false, "").
Proof.
  cbn [store_pieces].
  destruct (xml_compatible (String a piece)) eqn:E; [|reflexivity].
  assert (xml_compatible piece = true) as ->.
  { cbn [xml_compatible] in E. now apply andb_true_iff in E as [_ E]. }
  destruct sep as [b|]; [|reflexivity]. now destruct (store_pieces ps).
Qed.

(** A value that is stored whole is read back with its line ends as
    newlines. *)
Lemma written_of_writable (value : string) :
  writable value = true -> written value = line_ends_read_back value.
Proof.
  unfold writable, written.
  induction value as [|a value IH]; [reflexivity|].
  cbn [pieces line_ends_read_back].
  destruct (is_separator a).
  - cbn [store_pieces xml_compatible].
    destruct (store_pieces (pieces value)) as [stored text].
    cbn [fst snd] in *. intros H. now rewrite (IH H).
  - pose proof (pieces_not_nil value) as Hn.
    destruct (pieces value) as [|[piece sep] ps]; [contradiction|].
    rewrite store_pieces_cons.
    destruct (xml_compatible (String a piece)); [|discriminate].
    cbn [fst snd]. intros H. now rewrite (IH H).
Qed.

(** Without a carriage return, the text read back is the text stored. *)
Lemma line_ends_without_return (value : string) :
  has_char "013" value = false -> line_ends_read_back value = value.
Proof.
  induction value as [|a value IH]; [reflexivity|].
  cbn [has_char line_ends_read_back]. intros H.
  apply orb_false_iff in H as [Ha Hv]. rewrite (IH Hv). f_equal.
  unfold is_separator, read_back. rewrite Ha.
  destruct (Ascii.eqb_spec a "009") as [->|]; [reflexivity|].
  destruct (Ascii.eqb_spec a "010") as [->|]; reflexivity.
Qed.

End Writes.

Section Filler.

Variables (cell_ : nat) (row_ : table_row) (c : Z).
Variables (value : string) (d : position_info).

Lemma fill_next_cell_eq :
  fill_type d = next_cell ->
  _fill_cell_by_position cell_ row_ c value d
  = if c + 1 <? Z.of_nat (List.length row_) then
      match py_index (List.length row_) (c + 1) with
      | Returned next =>
          (writable value, list_update row_ next (set_text value))
      | Raised _ => (false, row_)
      end
    else (false, row_).
Proof.
  intros Hf. unfold _fill_cell_by_position, fill_cell_body, write.
  rewrite Hf, String.eqb_refl.
  destruct (_ <? _); [|reflexivity].
  destruct (py_index _ _); [|reflexivity]. now destruct (writable value).
Qed.

Lemma fill_same_cell_eq :
  fill_type d = same_cell_with_context ->
  _fill_cell_by_position cell_ row_ c value d
  = (writable value, list_update row_ cell_ (add_paragraph value)).
Proof.
  intros Hf. unfold _fill_cell_by_position, fill_cell_body, write.
  rewrite Hf. change (String.eqb same_cell_with_context next_cell) with false.
  rewrite String.eqb_refl. now destruct (writable value).
Qed.

Lemma fill_other_eq :
  fill_type d <> next_cell -> fill_type d <> same_cell_with_context ->
  _fill_cell_by_position cell_ row_ c value d = (false, row_).
Proof.
  intros H1 H2. unfold _fill_cell_by_position, fill_cell_body.
  apply String.eqb_neq in H1, H2. now rewrite H1, H2.
Qed.

Lemma py_index_in_range (n : nat) (i : Z) :
  0 <= i < Z.of_nat n -> py_index n i = Returned (Z.to_nat i).
Proof.
  intros H. unfold py_index. cbv zeta.
  rewrite !(proj2 (Z.ltb_ge i 0)) by lia.
  now rewrite (proj2 (Z.leb_gt (Z.of_nat n) i)) by lia.
Qed.

End Filler.

(** C8, as the code has it.  A [next_cell] fill at column [c] of a row of
    [n] cells.  When [c + 1 < n], the content of the cell at column [c + 1]
    is replaced by what the library stores of the value, and the cell at
    column [c] and every other cell of the row are as before; the fill
    returns true when the library stores the whole value, which is then the
    text of the cell at column [c + 1], line ends read back as newlines; it
    returns false when the write raises.  When [c + 1 >= n] it returns false
    and the row is as before. *)
Theorem fill_next_cell (cell_ : nat) (row_ : table_row) (c : Z)
    (value : string) (d : position_info) :
  fill_type d = next_cell -> 0 <= c ->
  (c + 1 < Z.of_nat (List.length row_) ->
   exists row',
     _fill_cell_by_position cell_ row_ c value d = (writable value, row')
     /\ List.length row' = List.length row_
     /\ option_map cell_text (nth_error row' (Z.to_nat (c + 1)))
        = Some (written value)
     /\ nth_error row' (Z.to_nat c) = nth_error row_ (Z.to_nat c)
     /\ forall j, j <> Z.to_nat (c + 1) -> nth_error row' j = nth_error row_ j)
  /\ (writable value = true -> written value = line_ends_read_back value)
  /\ (has_char "013" value = false -> line_ends_read_back value = value)
  /\ (Z.of_nat (List.length row_) <= c + 1 ->
      _fill_cell_by_position cell_ row_ c value d = (false, row_)).
Proof.
  intros Hf Hc. rewrite (@fill_next_cell_eq cell_ row_ c value d Hf).
  split; [|split; [apply written_of_writable|
                   split; [apply line_ends_without_return|]]]; intros Hn.
  - rewrite (proj2 (Z.ltb_lt _ _) Hn), py_index_in_range by lia.
    eexists. split; [reflexivity|].
    split; [apply list_update_length|].
    split; [|split; [|intros j Hj]; apply list_update_other; [lia | exact Hj]].
    rewrite list_update_same.
    destruct (nth_error row_ (Z.to_nat (c + 1))) eqn:E; [reflexivity|].
    apply nth_error_None in E. lia.
  - now rewrite (proj2 (Z.ltb_ge _ _) Hn).
Qed.

(** The witness of C8: the row [label | (empty)], filled at column 0, and
    the one-cell row [label], which has no next cell. *)
Lemma fill_next_cell_witness :
  let d := {| row := 2; col := 0; context := None; field_name := "label";
              fill_type := next_cell |} in
  _fill_cell_by_position 0 [["label"]; [""]] 0 "value" d
  = (true, [["label"]; ["value"]])
  /\ _fill_cell_by_position 0 [["label"]] 0 "value" d = (false, [["label"]]).
Proof.
  intros d.
  destruct (@fill_next_cell 0 [["label"]; [""]] 0 "value" d eq_refl
              ltac:(lia)) as [H _].
  destruct (@fill_next_cell 0 [["label"]] 0 "value" d eq_refl ltac:(lia))
    as (_ & _ & _ & H').
  split; [reflexivity|]. apply H'. simpl. lia.
Defined.

(** C8 fails on a value with a form feed, which the library cannot store:
    there is a next cell, the fill returns false, and the next cell has lost
    its text. *)
Lemma fill_next_cell_write_raises :
  let d := {| row := 2; col := 0; context := None; field_name := "label";
              fill_type := next_cell |} in
  let row_ := [["label"]; ["old"]] in
  0 + 1 < Z.of_nat (List.length row_)
  /\ _fill_cell_by_position 0 row_ 0 (String "012" "") d
     = (false, [["label"]; [""]]).
Proof. split; reflexivity. Qed.

(** ** The fill pass *)

(** C7.  On a document without tables the fill pass returns [False]: nothing
    is written out, the document in memory is as loaded, and no field is
    recorded as filled or skipped. *)
Theorem no_table_is_fatal (mapped_data template_structure : dict string) :
  let r := stage3_position_aware_template_filling (Some []) mapped_data
                                                  template_structure in
  returned r = false /\ saved r = None /\ in_memory r = []
  /\ filled r = [] /\ skipped r = [] /\ unfilled r = [].
Proof. repeat split. Qed.

Section Unfilled.

Lemma existsb_eqb_In (key : string) (l : list string) :
  existsb (String.eqb key) l = true <-> In key l.
Proof.
  rewrite existsb_exists. split.
  - intros (x & Hx & E). apply String.eqb_eq in E. now subst.
  - intros H. exists key. split; [exact H | apply String.eqb_refl].
Qed.

Lemma filter_split_length {A} (p : A -> bool) (l : list A) :
  (List.length (filter (fun a => negb (p a)) l) + List.length (filter p l)
   = List.length l)%nat.
Proof.
  induction l as [|a l IH]; simpl; [reflexivity|].
  destruct (p a); simpl; lia.
Qed.

Lemma validate_unfilled_spec (template_structure : dict string)
    (filled_ : list string) :
  (forall key,
      In key (_validate_unfilled_fields template_structure filled_)
      <-> In key (dict_keys template_structure)
          /\ ~ In key (filled_keys filled_))
  /\ (List.length (_validate_unfilled_fields template_structure filled_)
      + List.length (filter (is_filled filled_)
                            (dict_keys template_structure))
      = List.length (dict_keys template_structure))%nat.
Proof.
  unfold _validate_unfilled_fields. split.
  - intros key. rewrite filter_In, negb_true_iff.
    fold (filled_keys filled_).
    rewrite <- not_true_iff_false, existsb_eqb_In. reflexivity.
  - apply (filter_split_length (is_filled filled_)).
Qed.

End Unfilled.

Lemma before_first_unfold (sep s : string) :
  PyStr.before_first sep s
  = if String.prefix sep s then ""
    else match s with
         | EmptyString => ""
         | String a s' => String a (PyStr.before_first sep s')
         end.
Proof. destruct s; reflexivity. Qed.

(** The key of a filled entry is the field key it was built from, for a
    key without a space. *)
Lemma filled_entry_key (key value : string) :
  has_char " " key = false ->
  PyStr.before_first arrow (filled_entry key value) = key.
Proof.
  unfold filled_entry. generalize (PyStr.take 50 value
    ++ (if (50 <? PyStr.len value)%nat then "..." else "")) as rest.
  intros rest. induction key as [|a key IH]; intros H.
  - rewrite before_first_unfold.
    now rewrite (proj2 (prefix_app arrow ("" ++ arrow ++ rest)))
      by now exists rest.
  - cbn [has_char] in H. apply orb_false_iff in H as [Ha Hk].
    change (String a key ++ arrow ++ rest)
      with (String a (key ++ arrow ++ rest)).
    rewrite before_first_unfold. unfold arrow at 1. cbn [String.prefix].
    destruct (ascii_dec " " a) as [<-|_]; [discriminate|].
    now rewrite IH.
Qed.

(** C5, as the code has it.  After a fill pass that returns [True], the
    unfilled keys reported are exactly the template keys, whatever their
    intended value, that are not the key of a filled entry, and their number
    is [K] less the number of template keys that are. *)
Theorem unfilled_accounting (template : option document)
    (mapped_data template_structure : dict string) :
  let r := stage3_position_aware_template_filling template mapped_data
                                                  template_structure in
  returned r = true ->
  (forall key,
      In key (unfilled r)
      <-> In key (dict_keys template_structure)
          /\ ~ In key (filled_keys (filled r)))
  /\ (List.length (unfilled r)
      + List.length (filter (is_filled (filled r))
                            (dict_keys template_structure))
      = List.length (dict_keys template_structure))%nat.
Proof.
  unfold stage3_position_aware_template_filling.
  destruct template as [[|table_ others]|]; try discriminate.
  destruct (build_position_matches mapped_data []); [|discriminate].
  destruct (scan_table _ _ _) as [[[]|e] st]; [|discriminate].
  intros _. apply validate_unfilled_spec.
Qed.

Lemma unfilled_accounting_witness :
  let template_structure := [("row_1_col_1_a", "A"); ("row_2_col_1_b", "B")] in
  let r := stage3_position_aware_template_filling
             (Some [[[["a"]; [""]]; [["b"]; [""]]]])
             [("row_1_col_1_a", "v")] template_structure in
  returned r = true
  /\ (List.length (unfilled r)
      + List.length (filter (is_filled (filled r))
                            (dict_keys template_structure))
      = List.length (dict_keys template_structure))%nat.
Proof.
  intros template_structure r. split; [reflexivity|].
  apply (@unfilled_accounting (Some [[[["a"]; [""]]; [["b"]; [""]]]])
           [("row_1_col_1_a", "v")] template_structure).
  reflexivity.
Defined.

(** C5 fails on a template key that has no intended value: it is reported
    as unfilled, and the size is not the count of valued keys less the
    number of filled fields. *)
Lemma unfilled_reports_valueless_key :
  let template_structure := [("row_1_col_1_a", "A"); ("row_2_col_1_b", "")] in
  let mapped_data := [("row_1_col_1_a", "v")] in
  let r := stage3_position_aware_template_filling
             (Some [[[["a"]; [""]]; [["b"]; [""]]]])
             mapped_data template_structure in
  returned r = true
  /\ filled r = ["row_1_col_1_a -> v"]
  /\ unfilled r = ["row_2_col_1_b"]
  /\ unfilled_as_specified template_structure mapped_data (filled r) = []
  /\ List.length (unfilled r)
     <> (List.length (filter (intended_non_empty mapped_data)
                             (dict_keys template_structure))
         - List.length (filled r))%nat.
Proof. vm_compute. repeat split. discriminate. Qed.

Section Dicts.

Lemma dict_get_set_same {V} (m : dict V) (k : string) (v : V) :
  dict_get (dict_set m k v) k = Some v.
Proof.
  induction m as [|[k' v'] m IH]; simpl.
  - now rewrite String.eqb_refl.
  - destruct (String.eqb k' k) eqn:E; simpl; now rewrite E.
Qed.

Lemma dict_get_set_other {V} (m : dict V) (k k' : string) (v : V) :
  k' <> k -> dict_get (dict_set m k v) k' = dict_get m k'.
Proof.
  intros Hk. induction m as [|[k0 v0] m IH]; simpl.
  - apply String.eqb_neq in Hk. now rewrite String.eqb_sym, Hk.
  - destruct (String.eqb k0 k) eqn:E; simpl.
    + apply String.eqb_eq in E. subst k0.
      apply String.eqb_neq in Hk. now rewrite String.eqb_sym, Hk.
    + now rewrite IH.
Qed.

End Dicts.

(** *** The scan keeps no record of resolved fields *)

Section LogBlind.

Lemma log_blind_ret {A} (a : A) : log_blind (ret a).
Proof. intros f s st. reflexivity. Qed.

Lemma log_blind_lift {A} (r : result A) : log_blind (lift r).
Proof. intros f s st. reflexivity. Qed.

Lemma log_blind_bind {A B} (m : M A) (k : A -> M B) :
  log_blind m -> (forall a, log_blind (k a)) -> log_blind (mbind m k).
Proof.
  intros Hm Hk f s st. unfold mbind. rewrite Hm.
  destruct (m st) as [[a|e] st']; simpl; [apply Hk | reflexivity].
Qed.

Lemma log_blind_for_each {A} (l : list A) (body : A -> M unit) :
  (forall a, log_blind (body a)) -> log_blind (for_each l body).
Proof.
  intros Hb. induction l as [|a l IH]; simpl.
  - apply log_blind_ret.
  - apply log_blind_bind; auto.
Qed.

Lemma log_blind_current_row (row_idx : nat) : log_blind (current_row row_idx).
Proof. intros f s st. reflexivity. Qed.

Lemma log_blind_store_row (row_idx : nat) (row_ : table_row) :
  log_blind (store_row row_idx row_).
Proof. intros f s st. reflexivity. Qed.

Lemma log_blind_append_filled (entry : string) :
  log_blind (append_filled entry).
Proof.
  intros f s st. unfold append_filled, with_logs. simpl.
  now rewrite app_assoc.
Qed.

Lemma log_blind_append_skipped (entry : string) :
  log_blind (append_skipped entry).
Proof.
  intros f s st. unfold append_skipped, with_logs. simpl.
  now rewrite app_assoc.
Qed.

Hint Resolve log_blind_ret log_blind_lift log_blind_current_row
  log_blind_store_row log_blind_append_filled log_blind_append_skipped
  : core.

Lemma log_blind_fill_cell (row_idx cell_idx : nat) (value : string)
    (d : position_info) :
  log_blind (fill_cell row_idx cell_idx value d).
Proof.
  unfold fill_cell. apply log_blind_bind; auto. intros row_.
  destruct (_fill_cell_by_position _ _ _ _ _) as [success row'].
  apply log_blind_bind; auto.
Qed.

Lemma log_blind_visit_field (pm : dict position_info)
    (row_idx cell_idx : nat) (text : string) (item : string * string) :
  log_blind (visit_field pm row_idx cell_idx text item).
Proof.
  unfold visit_field. destruct item as [key value].
  destruct (negb _); auto.
  destruct (dict_get pm key) as [d|]; auto.
  apply log_blind_bind; auto. intros row_.
  apply log_blind_bind; auto. intros [|]; auto.
  apply log_blind_bind; [apply log_blind_fill_cell|].
  intros [|]; auto.
Qed.

Lemma log_blind_visit_cell (md : dict string) (pm : dict position_info)
    (row_idx cell_idx : nat) :
  log_blind (visit_cell md pm row_idx cell_idx).
Proof.
  unfold visit_cell. apply log_blind_bind; auto. intros row_.
  apply log_blind_for_each. intros item. apply log_blind_visit_field.
Qed.

Lemma log_blind_visit_row (md : dict string) (pm : dict position_info)
    (row_idx : nat) :
  log_blind (visit_row md pm row_idx).
Proof.
  unfold visit_row. apply log_blind_bind; auto. intros row_.
  apply log_blind_for_each. intros c. apply log_blind_visit_cell.
Qed.

Lemma log_blind_scan_table (md : dict string) (pm : dict position_info) :
  log_blind (scan_table md pm).
Proof.
  intros f s st. unfold scan_table.
  change (rows (with_logs f s st)) with (rows st).
  apply log_blind_for_each. intros r. apply log_blind_visit_row.
Qed.

(** A field that matches the cell under the scan is handed to the filler,
    whatever the two lists already hold. *)
Lemma visit_matching_field (pm : dict position_info)
    (row_idx cell_idx : nat) (text key value : string) (d : position_info)
    (st : fill_state) :
  PyStr.truthy value = true ->
  dict_get pm key = Some d ->
  _is_position_match (Z.of_nat row_idx) (Z.of_nat cell_idx) text d
                     (nth row_idx (rows st) []) = Returned true ->
  visit_field pm row_idx cell_idx text (key, value) st
  = let (success, row') :=
      _fill_cell_by_position cell_idx (nth row_idx (rows st) [])
                             (Z.of_nat cell_idx) value d in
    (Returned tt,
     {| rows := list_update (rows st) row_idx (fun _ => row');
        filled_fields :=
          if success then (filled_fields st ++ [filled_entry key value])%list
          else filled_fields st;
        skipped_fields :=
          if success then skipped_fields st
          else (skipped_fields st ++ [skipped_entry key])%list |}).
Proof.
  intros Hv Hd Hm. unfold visit_field. rewrite Hv, Hd.
  cbv [negb mbind current_row lift]. rewrite Hm.
  cbv [fill_cell mbind current_row].
  destruct (_fill_cell_by_position _ _ _ _ _) as [[|] row'];
    reflexivity.
Qed.

(** A [next_cell] descriptor matches at its own coordinate only. *)
Lemma next_cell_matches_once (d : position_info)
    (r c r' c' : Z) (t t' : string) (row_ row' : table_row) :
  fill_type d = next_cell ->
  _is_position_match r c t d row_ = Returned true ->
  _is_position_match r' c' t' d row' = Returned true ->
  r = r' /\ c = c'.
Proof.
  intros Hf H1 H2.
  rewrite (@match_next_cell r c t d row_ Hf) in H1.
  rewrite (@match_next_cell r' c' t' d row' Hf) in H2.
  injection H1 as H1. injection H2 as H2.
  rewrite !andb_true_iff, !Z.eqb_eq in H1, H2. lia.
Qed.

End LogBlind.

(** ** The fallback mapper *)

Section Fallback.

Lemma existsb_concat {A} (p : A -> bool) (ls : list (list A)) :
  existsb p (List.concat ls) = existsb (existsb p) ls.
Proof.
  induction ls as [|l ls IH]; simpl; [reflexivity|].
  now rewrite existsb_app, IH.
Qed.

Lemma existsb_map {A B} (g : A -> B) (p : B -> bool) (l : list A) :
  existsb p (map g l) = existsb (fun a => p (g a)) l.
Proof. induction l as [|a l IH]; simpl; [reflexivity | now rewrite IH]. Qed.

Lemma direct_rule_eq (input_key template_key : string) :
  PyStr.contains input_key template_key || any_rule_in template_key
  = direct_rule input_key template_key.
Proof.
  unfold any_rule_in, direct_rule. now rewrite existsb_concat, existsb_map.
Qed.

Lemma semantic_rule_any_rule (input_key template_key : string) :
  semantic_rule input_key template_key = true ->
  any_rule_in template_key = true.
Proof.
  unfold semantic_rule, any_rule_in.
  rewrite existsb_concat, existsb_map, !existsb_exists.
  intros (g & Hg & H). apply andb_true_iff in H as [_ H]. eauto.
Qed.

Lemma semantic_loop_spec (rules : dict (list string))
    (template_key input_key input_value : string) (m : dict string) :
  semantic_loop rules template_key input_key input_value m
  = if existsb (fun group : string * list string =>
                  (String.eqb input_key (fst group)
                   || existsb (String.eqb input_key) (snd group))
                  && existsb (fun synonym =>
                                PyStr.contains synonym template_key)
                             (snd group))
               rules
    then dict_set m template_key input_value
    else m.
Proof.
  induction rules as [|[semantic_key names] rules IH]; simpl; [reflexivity|].
  rewrite (orb_comm (String.eqb input_key semantic_key)).
  destruct (_ || _); simpl; [|exact IH].
  destruct (existsb _ names); simpl; [reflexivity | exact IH].
Qed.

Lemma input_loop_spec (items : dict string) (template_key : string)
    (m : dict string) :
  input_loop items template_key m
  = match first_satisfying items template_key with
    | Some value => dict_set m template_key value
    | None => m
    end.
Proof.
  unfold first_satisfying.
  revert m; induction items as [|[input_key input_value] items IH];
    intros m; [reflexivity|].
  cbn [input_loop find]. unfold satisfies at 1. cbn [fst snd].
  destruct (PyStr.truthy input_value); cbn [andb]; [|apply IH].
  rewrite direct_rule_eq.
  destruct (direct_rule input_key template_key) eqn:Ed; cbn [orb];
    [reflexivity|].
  rewrite <- direct_rule_eq in Ed. apply orb_false_iff in Ed as [_ Ea].
  assert (semantic_rule input_key template_key = false) as Es.
  { destruct (semantic_rule input_key template_key) eqn:Es; [|reflexivity].
    apply semantic_rule_any_rule in Es. congruence. }
  rewrite Es, semantic_loop_spec.
  unfold semantic_rule in Es. rewrite Es. apply IH.
Qed.

Lemma fallback_fold_spec (input_data : dict string) (template_key : string)
    (keys : list string) (m : dict string) :
  dict_get (fold_left (fun mapped_data key =>
                         input_loop input_data key mapped_data) keys m)
           template_key
  = match first_satisfying input_data template_key with
    | Some value =>
        if existsb (String.eqb template_key) keys then Some value
        else dict_get m template_key
    | None => dict_get m template_key
    end.
Proof.
  revert m; induction keys as [|key keys IH]; intros m; cbn [fold_left existsb].
  - now destruct (first_satisfying _ _).
  - rewrite IH.
    destruct (String.eqb_spec template_key key) as [<-|Hk]; cbn [orb].
    + rewrite input_loop_spec.
      destruct (first_satisfying input_data template_key) as [value|];
        [|reflexivity].
      rewrite dict_get_set_same. now destruct (existsb _ keys).
    + assert (dict_get (input_loop input_data key m) template_key
              = dict_get m template_key) as ->; [|reflexivity].
      rewrite input_loop_spec.
      destruct (first_satisfying input_data key); [|reflexivity].
      now apply dict_get_set_other.
Qed.

Lemma find_first {A} (p : A -> bool) (before after : list A) (x : A) :
  (forall a, In a before -> p a = false) -> p x = true ->
  find p (before ++ x :: after) = Some x.
Proof.
  intros Hb Hx. induction before as [|b before IH]; simpl.
  - now rewrite Hx.
  - rewrite (Hb b) by now left. apply IH. intros a Ha. apply Hb. now right.
Qed.

Lemma find_nothing {A} (p : A -> bool) (l : list A) :
  (forall a, In a l -> p a = false) -> find p l = None.
Proof.
  intros H. induction l as [|b l IH]; simpl; [reflexivity|].
  rewrite (H b) by now left. apply IH. intros a Ha. apply H. now right.
Qed.

End Fallback.

(** C6.  In the fallback mapper, the value mapped to a template key is that
    of the first input field, in insertion order, that has a value and
    satisfies the direct-containment rule or the semantic rule; no later
    input field changes it, and the key is absent when no field does. *)
Theorem fallback_first_match_wins (template_structure input_data : dict string)
    (template_key : string) :
  In template_key (dict_keys template_structure) ->
  (forall before input_key input_value after,
      input_data = (before ++ (input_key, input_value) :: after)%list ->
      (forall item, In item before -> satisfies template_key item = false) ->
      satisfies template_key (input_key, input_value) = true ->
      dict_get (_fallback_field_mapping template_structure input_data)
               template_key = Some input_value)
  /\ ((forall item, In item input_data -> satisfies template_key item = false) ->
      dict_get (_fallback_field_mapping template_structure input_data)
               template_key = None).
Proof.
  intros Hk. apply existsb_eqb_In in Hk.
  unfold _fallback_field_mapping. split.
  - intros before input_key input_value after -> Hb Hx.
    rewrite fallback_fold_spec, Hk. unfold first_satisfying.
    now rewrite (find_first _ _ _ _ Hb Hx).
  - intros Hn. rewrite fallback_fold_spec. unfold first_satisfying.
    now rewrite (find_nothing _ _ Hn).
Qed.

Lemma fallback_first_match_wins_witness :
  dict_get (_fallback_field_mapping
              [("row_1_col_1_id", "x")] [("e", ""); ("q", "1"); ("id", "2")])
           "row_1_col_1_id" = Some "1".
Proof.
  refine (proj1 (@fallback_first_match_wins
                   [("row_1_col_1_id", "x")]
                   [("e", ""); ("q", "1"); ("id", "2")]
                   "row_1_col_1_id" _)
            [("e", "")] "q" "1" [("id", "2")] eq_refl _ eq_refl).
  - simpl. auto.
  - intros item [<- | []]. reflexivity.
Defined.

(** * Further properties of the code *)

(** ** Segments of a key *)

Section Segments.

Variable c : ascii.

Lemma split_no_sep (s : string) :
  has_char c s = false -> PyStr.split c s = [s].
Proof.
  induction s as [|a s IH]; cbn [has_char PyStr.split]; [reflexivity|].
  intros H. apply orb_false_iff in H as [Ha Hs].
  now rewrite Ha, (IH Hs).
Qed.

Lemma split_app (a b : string) :
  has_char c a = false ->
  PyStr.split c (a ++ String c b) = a :: PyStr.split c b.
Proof.
  induction a as [|x a IH]; intros H.
  - cbn [String.append PyStr.split]. now rewrite Ascii.eqb_refl.
  - cbn [has_char] in H. apply orb_false_iff in H as [Hx Ha].
    change (String x a ++ String c b) with (String x (a ++ String c b)).
    cbn [PyStr.split]. now rewrite Hx, (IH Ha).
Qed.

Lemma join_cons (sep p q : string) (r : list string) :
  PyStr.join sep (p :: q :: r) = p ++ sep ++ PyStr.join sep (q :: r).
Proof. reflexivity. Qed.

Lemma join_split (s : string) :
  PyStr.join (String c "") (PyStr.split c s) = s.
Proof.
  induction s as [|a s IH]; [reflexivity|].
  cbn [PyStr.split]. pose proof (@split_not_nil c s) as Hn.
  destruct (PyStr.split c s) as [|p ps] eqn:E; [contradiction|].
  destruct (Ascii.eqb_spec a c) as [->|Hac].
  - rewrite join_cons, IH. reflexivity.
  - destruct ps as [|q ps].
    + cbn [PyStr.join] in *. now rewrite IH.
    + rewrite join_cons in *.
      change (String a p ++ String c "" ++ PyStr.join (String c "") (q :: ps))
        with (String a (p ++ String c "" ++ PyStr.join (String c "") (q :: ps))).
      now rewrite IH.
Qed.

Lemma split_length (s : string) :
  List.length (PyStr.split c s) = S (count_char c s).
Proof.
  induction s as [|a s IH]; [reflexivity|].
  cbn [PyStr.split count_char]. destruct (Ascii.eqb a c).
  - cbn [List.length]. now rewrite IH.
  - destruct (PyStr.split c s); cbn [List.length] in *; [discriminate|].
    now rewrite IH.
Qed.

End Segments.

(** ** Keys that decode, keys that do not *)

Section KeyShapes.

Lemma split_four (a b c d rest : string) :
  has_char "_" a = false -> has_char "_" b = false ->
  has_char "_" c = false -> has_char "_" d = false ->
  PyStr.split "_" (a ++ "_" ++ b ++ "_" ++ c ++ "_" ++ d ++ "_" ++ rest)
  = a :: b :: c :: d :: PyStr.split "_" rest.
Proof.
  intros Ha Hb Hc Hd.
  change (a ++ "_" ++ b ++ "_" ++ c ++ "_" ++ d ++ "_" ++ rest)
    with (a ++ String "_" (b ++ String "_" (c ++ String "_"
                                              (d ++ String "_" rest)))).
  now rewrite !split_app.
Qed.

Lemma parse_parts_long (p0 p1 p2 p3 : string) (rest : list string) :
  rest <> [] ->
  parse_parts (p0 :: p1 :: p2 :: p3 :: rest)
  = n <- PyStr.py_int p1 ;;
    if String.eqb p2 "col" then
      m <- PyStr.py_int p3 ;;
      Returned (Some {| row := n - 1; col := m - 1; context := None;
                        field_name := PyStr.join "_" rest;
                        fill_type := next_cell |})
    else if String.eqb p2 "left" then
      Returned (Some {| row := n - 1; col := -1; context := Some p3;
                        field_name := PyStr.join "_" rest;
                        fill_type := same_cell_with_context |})
    else Returned None.
Proof. destruct rest; [contradiction | reflexivity]. Qed.

Lemma parse_key_with_name (p0 n kind m name : string) :
  has_char "_" p0 = false -> has_char "_" n = false ->
  has_char "_" kind = false -> has_char "_" m = false ->
  parse_position_body (p0 ++ "_" ++ n ++ "_" ++ kind ++ "_" ++ m ++ "_" ++ name)
  = v <- PyStr.py_int n ;;
    if String.eqb kind "col" then
      w <- PyStr.py_int m ;;
      Returned (Some {| row := v - 1; col := w - 1; context := None;
                        field_name := name; fill_type := next_cell |})
    else if String.eqb kind "left" then
      Returned (Some {| row := v - 1; col := -1; context := Some m;
                        field_name := name;
                        fill_type := same_cell_with_context |})
    else Returned None.
Proof.
  intros H0 Hn Hk Hm.
  rewrite parse_position_body_parts, split_four by assumption.
  rewrite parse_parts_long by apply split_not_nil.
  now rewrite (join_split "_" name).
Qed.

End KeyShapes.

(** The [col] form with a label.  A key [p_N_col_M_name], whose first,
    second and fourth segments hold no underscore, decodes to the
    [next_cell] descriptor of row [N - 1] and column [M - 1] whose field
    name is all of [name], underscores included; it is invalid when [int]
    does not read [N] or [M]. *)
Theorem parse_col_key (p0 n m name : string) :
  has_char "_" p0 = false -> has_char "_" n = false ->
  has_char "_" m = false ->
  _parse_position_key (p0 ++ "_" ++ n ++ "_col_" ++ m ++ "_" ++ name)
  = match PyStr.py_int n, PyStr.py_int m with
    | Returned v, Returned w =>
        Returned (Some {| row := v - 1; col := w - 1; context := None;
                          field_name := name; fill_type := next_cell |})
    | _, _ => Returned None
    end.
Proof.
  intros H0 Hn Hm. unfold _parse_position_key.
  change (p0 ++ "_" ++ n ++ "_col_" ++ m ++ "_" ++ name)
    with (p0 ++ "_" ++ n ++ "_" ++ "col" ++ "_" ++ m ++ "_" ++ name).
  rewrite parse_key_with_name by (assumption || reflexivity).
  destruct (PyStr.py_int n) as [v|e] eqn:En.
  - destruct (PyStr.py_int m) as [w|e] eqn:Em; [reflexivity|].
    apply py_int_raises in Em. now subst e.
  - apply py_int_raises in En. now subst e.
Qed.

Lemma parse_col_key_witness :
  _parse_position_key ("row" ++ "_" ++ "3" ++ "_col_" ++ "2" ++ "_" ++ "a_b")
  = Returned (Some {| row := 2; col := 1; context := None;
                      field_name := "a_b"; fill_type := next_cell |}).
Proof.
  exact (@parse_col_key "row" "3" "2" "a_b" eq_refl eq_refl eq_refl).
Defined.

(** The [left] form with a label.  A key [p_N_left_ctx_name], whose first,
    second and fourth segments hold no underscore, decodes to the
    [same_cell_with_context] descriptor of row [N - 1] with context [ctx]
    and field name [name], underscores included; it is invalid when [int]
    does not read [N]. *)
Theorem parse_left_key (p0 n ctx name : string) :
  has_char "_" p0 = false -> has_char "_" n = false ->
  has_char "_" ctx = false ->
  _parse_position_key (p0 ++ "_" ++ n ++ "_left_" ++ ctx ++ "_" ++ name)
  = match PyStr.py_int n with
    | Returned v =>
        Returned (Some {| row := v - 1; col := -1; context := Some ctx;
                          field_name := name;
                          fill_type := same_cell_with_context |})
    | Raised _ => Returned None
    end.
Proof.
  intros H0 Hn Hc. unfold _parse_position_key.
  change (p0 ++ "_" ++ n ++ "_left_" ++ ctx ++ "_" ++ name)
    with (p0 ++ "_" ++ n ++ "_" ++ "left" ++ "_" ++ ctx ++ "_" ++ name).
  rewrite parse_key_with_name by (assumption || reflexivity).
  destruct (PyStr.py_int n) as [v|e] eqn:En; [reflexivity|].
  apply py_int_raises in En. now subst e.
Qed.

Lemma parse_left_key_witness :
  _parse_position_key ("row" ++ "_" ++ "4" ++ "_left_" ++ "ctx" ++ "_" ++ "a_b")
  = Returned (Some {| row := 3; col := -1; context := Some "ctx";
                      field_name := "a_b";
                      fill_type := same_cell_with_context |}).
Proof.
  exact (@parse_left_key "row" "4" "ctx" "a_b" eq_refl eq_refl eq_refl).
Defined.

(** The keys that are invalid.  The decoder returns [None] exactly when the
    key has fewer than four segments, or [int] does not read its second
    segment, or its third segment is [col] and [int] does not read the
    fourth, or its third segment is neither [col] nor [left]. *)
Theorem parse_invalid_iff (key : string) :
  _parse_position_key key = Returned None
  <-> (segment_count key < 4)%nat
      \/ (exists e, PyStr.py_int (segment 1 key) = Raised e)
      \/ (segment 2 key = "col"
          /\ exists e, PyStr.py_int (segment 3 key) = Raised e)
      \/ (segment 2 key <> "col" /\ segment 2 key <> "left").
Proof.
  unfold _parse_position_key, segment, segment_count.
  rewrite parse_position_body_parts. unfold parse_parts.
  destruct (_ <? 4)%nat eqn:El.
  { apply Nat.ltb_lt in El. tauto. }
  apply Nat.ltb_ge in El.
  destruct (PyStr.py_int (nth 1 _ "")) as [v|e] eqn:E1.
  2:{ pose proof (py_int_raises _ E1); subst e. split; eauto. }
  cbn [rbind].
  destruct (String.eqb_spec (nth 2 (PyStr.split "_" key) "") "col") as [Hc|Hc].
  - destruct (PyStr.py_int (nth 3 _ "")) as [w|e] eqn:E3; cbn [rbind].
    + split; [discriminate|].
      intros [H|[[e H]|[[_ [e H]]|[H _]]]];
        [lia | discriminate | discriminate | contradiction].
    + pose proof (py_int_raises _ E3); subst e.
      split; [|reflexivity]. intros _. right. right. left. eauto.
  - destruct (String.eqb_spec (nth 2 (PyStr.split "_" key) "") "left")
      as [Hl|Hl].
    + split; [discriminate|].
      intros [H|[[e H]|[[H _]|[_ H]]]];
        [lia | discriminate | contradiction | contradiction].
    + split; auto.
Qed.

(** A key with fewer than three underscores is invalid. *)
Theorem parse_few_underscores (key : string) :
  (count_char "_" key < 3)%nat -> _parse_position_key key = Returned None.
Proof.
  intros H. unfold _parse_position_key.
  rewrite parse_position_body_parts. unfold parse_parts.
  rewrite split_length.
  now rewrite (proj2 (Nat.ltb_lt (S (count_char "_" key)) 4)) by lia.
Qed.

Lemma parse_few_underscores_witness :
  _parse_position_key "row_1_col" = Returned None.
Proof. apply parse_few_underscores. simpl. lia. Defined.

(** ** The matcher and the filler on decoded descriptors *)

Section FillerFacts.

Lemma string_app_assoc (a b c : string) : (a ++ b) ++ c = a ++ b ++ c.
Proof. induction a as [|x a IH]; simpl; [reflexivity | now rewrite IH]. Qed.

Lemma join_snoc (sep v p : string) (l : list string) :
  PyStr.join sep ((p :: l) ++ [v]) = PyStr.join sep (p :: l) ++ sep ++ v.
Proof.
  revert p; induction l as [|q l IH]; intros p; [reflexivity|].
  change ((p :: q :: l) ++ [v])%list with (p :: q :: (l ++ [v]))%list.
  rewrite !join_cons.
  change (q :: (l ++ [v]))%list with ((q :: l) ++ [v])%list.
  now rewrite IH, !string_app_assoc.
Qed.

Lemma fill_length (cell_ : nat) (row_ : table_row) (c : Z)
    (value : string) (d : position_info) :
  List.length (snd (_fill_cell_by_position cell_ row_ c value d))
  = List.length row_.
Proof.
  destruct (String.eqb_spec (fill_type d) next_cell) as [Hn|Hn];
    [|destruct (String.eqb_spec (fill_type d) same_cell_with_context)
        as [Hs|Hs]].
  - rewrite (@fill_next_cell_eq cell_ row_ c value d Hn).
    destruct (_ <? _); [|reflexivity].
    destruct (py_index _ _); [apply list_update_length | reflexivity].
  - rewrite (@fill_same_cell_eq cell_ row_ c value d Hs).
    apply list_update_length.
  - now rewrite (@fill_other_eq cell_ row_ c value d Hn Hs).
Qed.

(** A fill answers true only when the library has stored the value. *)
Lemma fill_true_writable (cell_ : nat) (row_ : table_row) (c : Z)
    (value : string) (d : position_info) :
  fst (_fill_cell_by_position cell_ row_ c value d) = true ->
  writable value = true.
Proof.
  destruct (String.eqb_spec (fill_type d) next_cell) as [Hn|Hn];
    [|destruct (String.eqb_spec (fill_type d) same_cell_with_context)
        as [Hs|Hs]].
  - rewrite (@fill_next_cell_eq cell_ row_ c value d Hn).
    destruct (_ <? _); [|discriminate].
    destruct (py_index _ _); [trivial | discriminate].
  - now rewrite (@fill_same_cell_eq cell_ row_ c value d Hs).
  - now rewrite (@fill_other_eq cell_ row_ c value d Hn Hs).
Qed.

(** A fill of a value that the library stores changes nothing when it
    answers false. *)
Lemma fill_false_unchanged (cell_ : nat) (row_ : table_row) (c : Z)
    (value : string) (d : position_info) :
  writable value = true ->
  fst (_fill_cell_by_position cell_ row_ c value d) = false ->
  snd (_fill_cell_by_position cell_ row_ c value d) = row_.
Proof.
  intros Hw.
  destruct (String.eqb_spec (fill_type d) next_cell) as [Hn|Hn];
    [|destruct (String.eqb_spec (fill_type d) same_cell_with_context)
        as [Hs|Hs]].
  - rewrite (@fill_next_cell_eq cell_ row_ c value d Hn).
    destruct (_ <? _); [|reflexivity].
    destruct (py_index _ _); [|reflexivity]. cbn [fst]. congruence.
  - rewrite (@fill_same_cell_eq cell_ row_ c value d Hs). cbn [fst].
    congruence.
  - now rewrite (@fill_other_eq cell_ row_ c value d Hn Hs).
Qed.

(** A fill changes one cell of the row at most. *)
Lemma fill_one_cell (cell_ : nat) (row_ : table_row) (c : Z)
    (value : string) (d : position_info) :
  exists target,
    forall j, j <> target ->
      nth_error (snd (_fill_cell_by_position cell_ row_ c value d)) j
      = nth_error row_ j.
Proof.
  destruct (String.eqb_spec (fill_type d) next_cell) as [Hn|Hn];
    [|destruct (String.eqb_spec (fill_type d) same_cell_with_context)
        as [Hs|Hs]].
  - rewrite (@fill_next_cell_eq cell_ row_ c value d Hn).
    destruct (_ <? _); [|now exists 0%nat].
    destruct (py_index _ _) as [next|e]; [|now exists 0%nat].
    exists next. intros j Hj. now apply list_update_other.
  - rewrite (@fill_same_cell_eq cell_ row_ c value d Hs).
    exists cell_. intros j Hj. now apply list_update_other.
  - rewrite (@fill_other_eq cell_ row_ c value d Hn Hs). now exists 0%nat.
Qed.

Lemma parse_position_key_returns (key : string) :
  exists o, _parse_position_key key = Returned o.
Proof.
  unfold _parse_position_key.
  destruct (parse_position_body key) as [o|e] eqn:E; [eauto|].
  destruct (parse_position_body_raises _ E) as [-> | ->]; eauto.
Qed.

End FillerFacts.

(** On a descriptor that the decoder returned and a column of the row, the
    match predicate returns a boolean: it raises neither [KeyError] nor
    [IndexError]. *)
Theorem match_of_decoded_returns (key : string) (d : position_info)
    (row_idx cell_idx : Z) (cell_text_ : string) (row_ : table_row) :
  _parse_position_key key = Returned (Some d) ->
  cell_idx <= Z.of_nat (List.length row_) ->
  exists b,
    _is_position_match row_idx cell_idx cell_text_ d row_ = Returned b.
Proof.
  intros Hd Hc. apply parse_well_formed in Hd.
  exact (@match_returns row_idx cell_idx cell_text_ d row_ Hd Hc).
Qed.

Lemma match_of_decoded_returns_witness :
  exists b,
    _is_position_match 3 1 "label"
      {| row := 3; col := -1; context := Some "ctx"; field_name := "label";
         fill_type := same_cell_with_context |}
      [["ctx"]; ["label"]] = Returned b.
Proof.
  apply (@match_of_decoded_returns "row_4_left_ctx_label"); [reflexivity|].
  simpl. lia.
Defined.

(** A [same_cell_with_context] fill appends a new paragraph to the cell
    handed to it and answers whether the library stored the value in it.
    When it did, the text of that cell becomes its old text, a newline and
    the value, line ends read back as newlines (the value alone for a cell
    without paragraphs).  When the write raised, the answer is false and the
    new paragraph holds what was stored before the failure.  The other cells
    of the row are as before. *)
Theorem fill_same_cell (cell_ : nat) (row_ : table_row) (c : Z)
    (value : string) (d : position_info) (old : cell) :
  fill_type d = same_cell_with_context ->
  nth_error row_ cell_ = Some old ->
  exists row',
    _fill_cell_by_position cell_ row_ c value d = (writable value, row')
    /\ List.length row' = List.length row_
    /\ nth_error row' cell_ = Some (old ++ [written value])%list
    /\ (writable value = true ->
        cell_text (old ++ [written value])%list
        = match old with
          | [] => line_ends_read_back value
          | _ => cell_text old ++ newline ++ line_ends_read_back value
          end)
    /\ forall j, j <> cell_ -> nth_error row' j = nth_error row_ j.
Proof.
  intros Hf Hold. rewrite (@fill_same_cell_eq cell_ row_ c value d Hf).
  eexists. split; [reflexivity|].
  split; [apply list_update_length|].
  split; [now rewrite list_update_same, Hold|].
  split; [|intros j Hj; now apply list_update_other].
  intros Hw. rewrite (written_of_writable _ Hw).
  unfold cell_text. destruct old as [|p l]; [reflexivity | apply join_snoc].
Qed.

Lemma fill_same_cell_witness :
  exists row',
    _fill_cell_by_position 1 [["ctx"]; ["label"]] 1 "value"
      {| row := 3; col := -1; context := Some "ctx"; field_name := "label";
         fill_type := same_cell_with_context |}
    = (true, row')
    /\ nth_error row' 1 = Some ["label"; "value"].
Proof.
  destruct (@fill_same_cell 1 [["ctx"]; ["label"]] 1 "value"
              {| row := 3; col := -1; context := Some "ctx";
                 field_name := "label";
                 fill_type := same_cell_with_context |}
              ["label"] eq_refl eq_refl) as (row' & H1 & _ & H3 & _).
  exists row'. split; assumption.
Defined.

(** The filler never changes the number of cells of the row and changes one
    cell at most, whatever the fill type and the column index.  It answers
    false for a value that the library does not store, and a fill that
    answers false for a value that the library does store has changed no
    cell at all. *)
Theorem fill_frame (cell_ : nat) (row_ : table_row) (c : Z)
    (value : string) (d : position_info) :
  List.length (snd (_fill_cell_by_position cell_ row_ c value d))
  = List.length row_
  /\ (exists target,
        forall j, j <> target ->
          nth_error (snd (_fill_cell_by_position cell_ row_ c value d)) j
          = nth_error row_ j)
  /\ (writable value = false ->
      fst (_fill_cell_by_position cell_ row_ c value d) = false)
  /\ (writable value = true ->
      fst (_fill_cell_by_position cell_ row_ c value d) = false ->
      snd (_fill_cell_by_position cell_ row_ c value d) = row_).
Proof.
  split; [apply fill_length|].
  split; [apply fill_one_cell|].
  split; [|apply fill_false_unchanged].
  intros Hw.
  destruct (fst (_fill_cell_by_position cell_ row_ c value d)) eqn:E;
    [|reflexivity].
  apply fill_true_writable in E. congruence.
Qed.

Lemma fill_frame_witness :
  fst (_fill_cell_by_position 0 [["label"]; ["old"]] 0 (String "012" "")
         {| row := 0; col := 0; context := None; field_name := "label";
            fill_type := next_cell |})
  = false
  /\ snd (_fill_cell_by_position 0 [["label"]] 0 "value"
            {| row := 0; col := 0; context := None; field_name := "label";
               fill_type := next_cell |})
     = [["label"]].
Proof.
  split.
  - apply (proj1 (proj2 (proj2
             (@fill_frame 0 [["label"]; ["old"]] 0 (String "012" "")
                {| row := 0; col := 0; context := None;
                   field_name := "label"; fill_type := next_cell |})))).
    reflexivity.
  - apply (proj2 (proj2 (proj2
             (@fill_frame 0 [["label"]] 0 "value"
                {| row := 0; col := 0; context := None;
                   field_name := "label"; fill_type := next_cell |}))));
      reflexivity.
Defined.

(** ** The scan never raises and keeps the shape of the table *)

Section ScanRuns.

Variable sh : list nat.

Lemma runs_ret {A} (a : A) (Q : A -> Prop) : Q a -> runs_at sh (ret a) Q.
Proof. intros HQ st Hst. now exists a, st. Qed.

Lemma runs_bind {A B} (m : M A) (k : A -> M B) (Q : A -> Prop)
    (R : B -> Prop) :
  runs_at sh m Q -> (forall a, Q a -> runs_at sh (k a) R) ->
  runs_at sh (mbind m k) R.
Proof.
  intros Hm Hk st Hst. unfold mbind.
  destruct (Hm st Hst) as (a & st' & -> & Hst' & Ha).
  exact (Hk a Ha st' Hst').
Qed.

Lemma runs_weaken {A} (m : M A) (Q R : A -> Prop) :
  runs_at sh m Q -> (forall a, Q a -> R a) -> runs_at sh m R.
Proof.
  intros Hm HQR st Hst. destruct (Hm st Hst) as (a & st' & E & Hst' & Ha).
  exists a, st'. auto.
Qed.

Lemma runs_for_each {A} (l : list A) (body : A -> M unit) :
  (forall a, In a l -> runs_at sh (body a) (fun _ => True)) ->
  runs_at sh (for_each l body) (fun _ => True).
Proof.
  induction l as [|a l IH]; intros Hb; cbn [for_each].
  - now apply runs_ret.
  - apply runs_bind with (Q := fun _ => True).
    + apply Hb. now left.
    + intros _ _. apply IH. intros b Hb'. apply Hb. now right.
Qed.

Lemma shape_nth (t : table) (r : nat) :
  List.length (nth r t []) = nth r (shape t) 0%nat.
Proof. unfold shape. now rewrite <- (map_nth (@List.length cell)). Qed.

Lemma shape_update (t : table) (r : nat) (row' : table_row) :
  List.length row' = nth r (shape t) 0%nat ->
  shape (list_update t r (fun _ => row')) = shape t.
Proof.
  revert r; induction t as [|x t IH]; intros [|r] H; cbn in *; auto.
  - now rewrite H.
  - now rewrite IH.
Qed.

Lemma runs_current_row (r : nat) :
  runs_at sh (current_row r)
          (fun row_ => List.length row_ = nth r sh 0%nat).
Proof.
  intros st Hst. exists (nth r (rows st) []), st.
  repeat split; auto. now rewrite shape_nth, Hst.
Qed.

Lemma runs_store_row (r : nat) (row' : table_row) :
  List.length row' = nth r sh 0%nat ->
  runs_at sh (store_row r row') (fun _ => True).
Proof.
  intros H st Hst. eexists tt, _. split; [reflexivity|]. split; [|exact I].
  cbn [rows]. rewrite shape_update; [exact Hst | now rewrite Hst].
Qed.

Lemma runs_append_filled (entry : string) :
  runs_at sh (append_filled entry) (fun _ => True).
Proof. intros st Hst. eexists tt, _. split; [reflexivity|]. now split. Qed.

Lemma runs_append_skipped (entry : string) :
  runs_at sh (append_skipped entry) (fun _ => True).
Proof. intros st Hst. eexists tt, _. split; [reflexivity|]. now split. Qed.

Lemma runs_fill_cell (r c : nat) (value : string) (d : position_info) :
  runs_at sh (fill_cell r c value d) (fun _ => True).
Proof.
  unfold fill_cell. eapply runs_bind; [apply runs_current_row|].
  intros row_ Hrow. cbv beta in Hrow.
  pose proof (@fill_length c row_ (Z.of_nat c) value d) as Hl.
  destruct (_fill_cell_by_position c row_ (Z.of_nat c) value d)
    as [success row'].
  cbn [snd] in Hl.
  eapply runs_bind; [apply runs_store_row; congruence|].
  intros _ _. now apply runs_ret.
Qed.

Variable position_matches : dict position_info.
Hypothesis Hpm : decoded_matches position_matches.

Lemma runs_visit_field (r c : nat) (text : string) (item : string * string) :
  (c < nth r sh 0)%nat ->
  runs_at sh (visit_field position_matches r c text item) (fun _ => True).
Proof.
  intros Hc. unfold visit_field. destruct item as [key value].
  destruct (negb _); [now apply runs_ret|].
  destruct (dict_get position_matches key) as [d|] eqn:Ed;
    [|now apply runs_ret].
  eapply runs_bind; [apply runs_current_row|]. intros row_ Hrow.
  cbv beta in Hrow.
  assert (Z.of_nat c <= Z.of_nat (List.length row_)) as Hin by lia.
  destruct (@match_returns (Z.of_nat r) (Z.of_nat c) text d row_
              (parse_well_formed _ (Hpm _ Ed)) Hin) as [b Hb].
  rewrite Hb.
  apply runs_bind with (Q := fun _ => True).
  { intros st Hst. now exists b, st. }
  intros [|] _; [|now apply runs_ret].
  eapply runs_bind; [apply runs_fill_cell|].
  intros [|] _; [apply runs_append_filled | apply runs_append_skipped].
Qed.

Lemma runs_visit_cell (md : dict string) (r c : nat) :
  (c < nth r sh 0)%nat ->
  runs_at sh (visit_cell md position_matches r c) (fun _ => True).
Proof.
  intros Hc. unfold visit_cell.
  eapply runs_bind; [apply runs_current_row|]. intros row_ _.
  apply runs_for_each. intros item _. now apply runs_visit_field.
Qed.

Lemma runs_visit_row (md : dict string) (r : nat) :
  runs_at sh (visit_row md position_matches r) (fun _ => True).
Proof.
  unfold visit_row.
  eapply runs_bind; [apply runs_current_row|]. intros row_ Hrow.
  cbv beta in Hrow.
  apply runs_for_each. intros c Hc. apply in_seq in Hc.
  apply runs_visit_cell. lia.
Qed.

Lemma runs_scan_table (md : dict string) :
  runs_at sh (scan_table md position_matches) (fun _ => True).
Proof.
  intros st Hst. unfold scan_table.
  apply runs_for_each; [|exact Hst]. intros r _. apply runs_visit_row.
Qed.

End ScanRuns.

Section PositionMatches.

Lemma build_position_matches_decoded (items : dict string) :
  forall pm0,
    decoded_matches pm0 ->
    exists pm,
      build_position_matches items pm0 = Returned pm /\ decoded_matches pm.
Proof.
  induction items as [|[key value] items IH]; intros pm0 H0;
    cbn [build_position_matches].
  - eauto.
  - destruct (PyStr.truthy value); [|now apply IH].
    destruct (parse_position_key_returns key) as [[d|] Hk]; rewrite Hk;
      cbn [rbind]; [|now apply IH].
    apply IH. intros k d' Hget.
    destruct (String.eqb_spec k key) as [->|Hne].
    + rewrite dict_get_set_same in Hget. congruence.
    + rewrite dict_get_set_other in Hget by assumption. now apply H0.
Qed.

Lemma decoded_matches_nil : decoded_matches [].
Proof. intros key d H. discriminate H. Qed.

End PositionMatches.



(** ** What the scan leaves alone *)

Section Keeps.

Variable P : fill_state -> Prop.

Lemma keeps_ret {A} (a : A) : keeps P (ret a).
Proof. intros st H. exact H. Qed.

Lemma keeps_lift {A} (r : result A) : keeps P (lift r).
Proof. intros st H. exact H. Qed.

Lemma keeps_current_row (r : nat) : keeps P (current_row r).
Proof. intros st H. exact H. Qed.

Lemma keeps_bind {A B} (m : M A) (k : A -> M B) :
  keeps P m -> (forall a, keeps P (k a)) -> keeps P (mbind m k).
Proof.
  intros Hm Hk st H. unfold mbind. specialize (Hm st H).
  destruct (m st) as [[a|e] st']; cbn [snd] in *; [now apply Hk | exact Hm].
Qed.

Lemma keeps_for_each {A} (l : list A) (body : A -> M unit) :
  (forall a, In a l -> keeps P (body a)) -> keeps P (for_each l body).
Proof.
  induction l as [|a l IH]; intros Hb; cbn [for_each].
  - apply keeps_ret.
  - apply keeps_bind; [apply Hb; now left|].
    intros _. apply IH. intros b Hb'. apply Hb. now right.
Qed.

End Keeps.

Section NoOps.

Lemma no_op_for_each {A} (l : list A) (body : A -> M unit) :
  (forall a, In a l -> no_op (body a)) -> no_op (for_each l body).
Proof.
  induction l as [|a l IH]; intros Hb st; cbn [for_each]; [reflexivity|].
  unfold mbind. rewrite (Hb a) by now left.
  apply IH. intros b Hb'. apply Hb. now right.
Qed.

Lemma no_op_after_current_row (r : nat) (k : table_row -> M unit) :
  (forall row_, no_op (k row_)) -> no_op (mbind (current_row r) k).
Proof. intros Hk st. unfold mbind, current_row. apply Hk. Qed.

Lemma for_each_single {A} (before after : list A) (a : A)
    (body : A -> M unit) (st : fill_state) :
  (forall x, In x before -> no_op (body x)) ->
  (forall x, In x after -> no_op (body x)) ->
  for_each (before ++ a :: after) body st
  = match body a st with
    | (Returned _, st') => (Returned tt, st')
    | (Raised e, st') => (Raised e, st')
    end.
Proof.
  intros Hb Ha. induction before as [|x before IH]; cbn [for_each app].
  - unfold mbind at 1. destruct (body a st) as [[[]|e] st']; [|reflexivity].
    now apply no_op_for_each.
  - unfold mbind at 1. rewrite (Hb x) by now left.
    apply IH. intros y Hy. apply Hb. now right.
Qed.

(** A field without a value, or whose key is not in the dict of decoded
    keys, is passed over. *)
Lemma visit_field_skips (pm : dict position_info) (r c : nat) (text : string)
    (key value : string) :
  PyStr.truthy value = false \/ dict_get pm key = None ->
  no_op (visit_field pm r c text (key, value)).
Proof.
  intros [H|H] st; unfold visit_field; rewrite H; cbn [negb]; [reflexivity|].
  now destruct (PyStr.truthy value).
Qed.

(** A field whose descriptor does not match the cell is passed over. *)
Lemma visit_field_no_match (pm : dict position_info) (r c : nat)
    (text key value : string) (d : position_info) (st : fill_state) :
  dict_get pm key = Some d ->
  _is_position_match (Z.of_nat r) (Z.of_nat c) text d (nth r (rows st) [])
  = Returned false ->
  visit_field pm r c text (key, value) st = (Returned tt, st).
Proof.
  intros Hd Hm. unfold visit_field. destruct (negb _); [reflexivity|].
  rewrite Hd. cbv [mbind current_row lift]. now rewrite Hm.
Qed.

(** The dict of decoded keys holds candidates only. *)
Lemma build_position_matches_get (items : dict string) :
  forall pm0 pm key d,
    build_position_matches items pm0 = Returned pm ->
    dict_get pm key = Some d ->
    dict_get pm0 key = Some d
    \/ exists value, candidate items key value d.
Proof.
  unfold candidate.
  induction items as [|[k v] items IH]; intros pm0 pm key d;
    cbn [build_position_matches].
  - intros [= <-] H. now left.
  - destruct (PyStr.truthy v) eqn:Ev.
    + destruct (parse_position_key_returns k) as [[dk|] Hk]; rewrite Hk;
        cbn [rbind]; intros Hb Hg;
        destruct (IH _ _ _ _ Hb Hg) as [H0 | (value & Hin & Hv & Hp)];
        try (right; exists value; repeat split; auto; now right);
        [|now left].
      destruct (String.eqb_spec key k) as [->|Hne].
      * rewrite dict_get_set_same in H0. injection H0 as <-.
        right. exists v. repeat split; auto. now left.
      * rewrite dict_get_set_other in H0 by assumption. now left.
    + intros Hb Hg.
      destruct (IH _ _ _ _ Hb Hg) as [H0 | (value & Hin & Hv & Hp)];
        [now left|].
      right. exists value. repeat split; auto. now right.
Qed.

End NoOps.

Section Frames.

Lemma nth_list_update_other {A} (l : list A) (i j : nat) (f : A -> A) (d : A) :
  j <> i -> nth j (list_update l i f) d = nth j l d.
Proof.
  revert i j; induction l as [|a l IH]; intros [|i] [|j] H; cbn; auto;
    congruence.
Qed.

Lemma filter_all {A} (p : A -> bool) (l : list A) :
  (forall a, In a l -> p a = true) -> filter p l = l.
Proof.
  intros H. induction l as [|a l IH]; cbn; [reflexivity|].
  rewrite (H a) by now left. f_equal. apply IH. intros b Hb. apply H. now right.
Qed.

Lemma validate_nothing_filled (template_structure : dict string) :
  _validate_unfilled_fields template_structure [] = dict_keys template_structure.
Proof. unfold _validate_unfilled_fields. now apply filter_all. Qed.

Variables (mapped_data : dict string) (pm : dict position_info).
Hypothesis Hpm : decoded_matches pm.

(** The scan with no usable field does nothing. *)
Lemma scan_table_no_op :
  (forall key value, In (key, value) mapped_data ->
                     PyStr.truthy value = false \/ dict_get pm key = None) ->
  forall st, scan_table mapped_data pm st = (Returned tt, st).
Proof.
  intros H st. unfold scan_table. apply no_op_for_each. intros r _.
  unfold visit_row. apply no_op_after_current_row. intros row_.
  apply no_op_for_each. intros c _.
  unfold visit_cell. apply no_op_after_current_row. intros row'.
  apply no_op_for_each. intros [key value] Hin.
  apply visit_field_skips. now apply H.
Qed.


(** The scan of a table of shape [sh] keeps its entries accounted for. *)
Lemma scan_keeps_accounted (sh : list nat) :
  keeps (accounted mapped_data sh) (scan_table mapped_data pm).
Proof.
  intros st Hst. unfold scan_table.
  assert (List.length (rows st) = List.length sh) as ->.
  { destruct Hst as [<- _]. unfold shape. now rewrite length_map. }
  revert st Hst.
  change (keeps (accounted mapped_data sh)
            (for_each (seq 0 (List.length sh)) (visit_row mapped_data pm))).
  apply keeps_for_each. intros r _.
  intros st Hst. unfold visit_row, mbind at 1, current_row at 1.
  assert (List.length (nth r (rows st) []) = nth r sh 0%nat) as ->.
  { destruct Hst as [<- _]. apply shape_nth. }
  revert st Hst.
  change (keeps (accounted mapped_data sh)
            (for_each (seq 0 (nth r sh 0%nat)) (visit_cell mapped_data pm r))).
  apply keeps_for_each. intros c Hc. apply in_seq in Hc.
  unfold visit_cell. apply keeps_bind; [apply keeps_current_row|].
  intros row1. apply keeps_for_each. intros [key value] Hin.
  intros st (Hsh & Hf & Hs). unfold visit_field.
  destruct (PyStr.truthy value) eqn:Ev; cbn [negb]; [|now repeat split].
  destruct (dict_get pm key) as [d|] eqn:Ed; [|now repeat split].
  pose proof (Hpm _ Ed) as Hd.
  cbv [mbind current_row lift].
  destruct (_is_position_match _ _ _ d _) as [[|]|e] eqn:Em;
    [|now repeat split|now repeat split].
  cbv [fill_cell mbind current_row].
  pose proof (@fill_length c (nth r (rows st) []) (Z.of_nat c) value d) as Hl.
  destruct (_fill_cell_by_position _ _ _ _ _) as [success row'] eqn:Ef.
  cbn [snd] in Hl.
  assert (shape (list_update (rows st) r (fun _ => row')) = sh) as Hsh'.
  { rewrite shape_update; [exact Hsh | now rewrite Hl, shape_nth]. }
  destruct success; cbn [store_row ret append_filled append_skipped snd];
    (split; [exact Hsh'|]); cbn [filled_fields skipped_fields]; split; auto.
  - apply Forall_app. split; [exact Hf|]. constructor; [|constructor].
    exists key, value, d. repeat split; auto.
  - apply Forall_app. split; [exact Hs|]. constructor; [|constructor].
    exists key, value, d, r.
    split; [repeat split; auto|]. split; [reflexivity|].
    destruct (writable value) eqn:Ew; [left | now right].
    apply parse_position_key_inv in Hd as Hinv.
    destruct Hinv as (_ & _ & n & _ & _ & [(_ & Hn & _) | (_ & Hsame & _)]).
    2:{ rewrite (@fill_same_cell_eq c _ (Z.of_nat c) value d Hsame), Ew in Ef.
        discriminate. }
    apply match_true_iff in Em.
    destruct Em as [(_ & Hr & Hcol & _) | (Hsame & _)];
      [|rewrite Hn in Hsame; discriminate].
    rewrite (@fill_next_cell_eq c _ (Z.of_nat c) value d Hn) in Ef.
    assert (List.length (nth r (rows st) []) = nth r sh 0%nat) as Hlen
        by (rewrite <- Hsh; apply shape_nth).
    rewrite Hlen in Ef.
    destruct (Z.of_nat c + 1 <? Z.of_nat (nth r sh 0%nat)) eqn:Elt.
    + apply Z.ltb_lt in Elt. unfold py_index in Ef. cbv zeta in Ef.
      rewrite !(proj2 (Z.ltb_ge (Z.of_nat c + 1) 0)) in Ef by lia.
      rewrite (proj2 (Z.leb_gt _ _) Elt), Ew in Ef. discriminate.
    + apply Z.ltb_ge in Elt.
      repeat split; auto. lia.
Qed.

End Frames.

Section PassFacts.

Variables (table_ : table) (others : document).
Variables (mapped_data template_structure : dict string).

(** The pass on a document with a table, unfolded: the dict of decoded keys
    and the state the scan ends in. *)
Lemma stage3_unfold :
  exists pm st,
    build_position_matches mapped_data [] = Returned pm
    /\ decoded_matches pm
    /\ (forall key d, dict_get pm key = Some d ->
                      exists value, candidate mapped_data key value d)
    /\ scan_table mapped_data pm
         {| rows := table_; filled_fields := []; skipped_fields := [] |}
       = (Returned tt, st)
    /\ stage3_position_aware_template_filling
         (Some (table_ :: others)) mapped_data template_structure
       = {| returned := true;
            saved := Some (rows st :: others);
            in_memory := rows st :: others;
            filled := filled_fields st;
            skipped := skipped_fields st;
            unfilled := _validate_unfilled_fields template_structure
                                                  (filled_fields st) |}.
Proof.
  destruct (build_position_matches_decoded mapped_data decoded_matches_nil)
    as (pm & Hb & Hpm).
  destruct (@runs_scan_table (shape table_) pm Hpm mapped_data
              {| rows := table_; filled_fields := [];
                 skipped_fields := [] |} eq_refl)
    as ([] & st & Hscan & _).
  exists pm, st. repeat split; auto.
  - intros key d Hg.
    destruct (build_position_matches_get _ _ _ Hb Hg) as [H|H];
      [discriminate | exact H].
  - unfold stage3_position_aware_template_filling.
    now rewrite Hb, Hscan.
Qed.

Lemma stage3_accounted :
  Forall (recorded_filled mapped_data)
         (filled (stage3_position_aware_template_filling
                    (Some (table_ :: others)) mapped_data template_structure))
  /\ Forall (recorded_skipped mapped_data (shape table_))
            (skipped (stage3_position_aware_template_filling
                        (Some (table_ :: others)) mapped_data
                        template_structure)).
Proof.
  destruct stage3_unfold as (pm & st & _ & Hpm & _ & Hscan & ->).
  cbn [filled skipped].
  pose proof (@scan_keeps_accounted mapped_data pm Hpm (shape table_)
                {| rows := table_; filled_fields := [];
                   skipped_fields := [] |}) as H.
  rewrite Hscan in H. cbn [snd] in H.
  destruct H as (_ & Hf & Hs); [|now split].
  repeat split; constructor.
Qed.

End PassFacts.

(** With nothing to place, that is when every field of the mapped data has
    an empty value or a key that does not decode, the pass writes the
    document out as it was, records nothing as filled or skipped, and
    reports every template key as unfilled. *)
Theorem stage3_nothing_to_place (table_ : table) (others : document)
    (mapped_data template_structure : dict string) :
  (forall key value,
      In (key, value) mapped_data ->
      PyStr.truthy value = false \/ _parse_position_key key = Returned None) ->
  stage3_position_aware_template_filling
    (Some (table_ :: others)) mapped_data template_structure
  = {| returned := true;
       saved := Some (table_ :: others);
       in_memory := table_ :: others;
       filled := [];
       skipped := [];
       unfilled := dict_keys template_structure |}.
Proof.
  intros H.
  destruct (stage3_unfold table_ others mapped_data template_structure)
    as (pm & st & _ & Hpm & Hcand & Hscan & ->).
  rewrite scan_table_no_op in Hscan.
  - injection Hscan as <-. cbn [rows filled_fields skipped_fields].
    now rewrite validate_nothing_filled.
  - intros key value Hin. destruct (H key value Hin) as [Hv|Hk]; [now left|].
    right. destruct (dict_get pm key) as [d|] eqn:Ed; [|reflexivity].
    apply Hpm in Ed. congruence.
Qed.

Lemma stage3_nothing_to_place_witness :
  stage3_position_aware_template_filling
    (Some [[[["label"]; [""]]]]) [("row_1_col_1_label", ""); ("note", "x")]
    [("row_1_col_1_label", "the label")]
  = {| returned := true;
       saved := Some [[[["label"]; [""]]]];
       in_memory := [[[["label"]; [""]]]];
       filled := [];
       skipped := [];
       unfilled := ["row_1_col_1_label"] |}.
Proof.
  apply (@stage3_nothing_to_place [[["label"]; [""]]] []
           [("row_1_col_1_label", ""); ("note", "x")]
           [("row_1_col_1_label", "the label")]).
  intros key value [[= <- <-] | [[= <- <-] | []]]; [left | right];
    reflexivity.
Defined.



(** Every entry of the filled list is the entry of a candidate field: a
    field of the mapped data with a value and a key that decodes. *)
Theorem filled_entries_are_candidates (table_ : table) (others : document)
    (mapped_data template_structure : dict string) (entry : string) :
  In entry (filled (stage3_position_aware_template_filling
                      (Some (table_ :: others)) mapped_data
                      template_structure)) ->
  exists key value d,
    candidate mapped_data key value d /\ entry = filled_entry key value.
Proof.
  intros H.
  destruct (stage3_accounted table_ others mapped_data template_structure)
    as [Hf _].
  rewrite Forall_forall in Hf. exact (Hf entry H).
Qed.

Lemma filled_entries_are_candidates_witness :
  exists key value d,
    candidate [("row_1_col_1_a", "v")] key value d
    /\ "row_1_col_1_a -> v" = filled_entry key value.
Proof.
  apply (@filled_entries_are_candidates [[["a"]; [""]]] []
           [("row_1_col_1_a", "v")] [] "row_1_col_1_a -> v").
  now left.
Defined.

(** A field is recorded as skipped only when it is a candidate whose fill
    failed: a [next_cell] field whose column is the last of its row, or a
    field of either fill type whose value the library does not store. *)
Theorem skipped_entries_are_failed_fills (table_ : table) (others : document)
    (mapped_data template_structure : dict string) (entry : string) :
  In entry (skipped (stage3_position_aware_template_filling
                       (Some (table_ :: others)) mapped_data
                       template_structure)) ->
  exists key value d r,
    candidate mapped_data key value d
    /\ entry = skipped_entry key
    /\ ((fill_type d = next_cell
         /\ row d = Z.of_nat r
         /\ col d + 1 = Z.of_nat (List.length (nth r table_ [])))
        \/ writable value = false).
Proof.
  intros H.
  destruct (stage3_accounted table_ others mapped_data template_structure)
    as [_ Hs].
  rewrite Forall_forall in Hs.
  destruct (Hs entry H) as (key & value & d & r & Hc & He & Hor).
  exists key, value, d, r. split; [exact Hc|]. split; [exact He|].
  destruct Hor as [(Hf & Hr & Hl) | Hw]; [left | now right].
  repeat split; auto. now rewrite shape_nth.
Qed.

Lemma skipped_entries_are_failed_fills_witness :
  exists key value d r,
    candidate [("row_1_col_1_a", "v")] key value d
    /\ skipped_entry "row_1_col_1_a" = skipped_entry key
    /\ ((fill_type d = next_cell
         /\ row d = Z.of_nat r
         /\ col d + 1 = Z.of_nat (List.length (nth r [[["a"]]] [])))
        \/ writable value = false).
Proof.
  apply (@skipped_entries_are_failed_fills [[["a"]]] []
           [("row_1_col_1_a", "v")] [] (skipped_entry "row_1_col_1_a")).
  now left.
Defined.

(** A field recorded as filled is not reported as unfilled, for a key
    without a space. *)
Theorem filled_key_not_reported (table_ : table) (others : document)
    (mapped_data template_structure : dict string) (key value : string) :
  has_char " " key = false ->
  In (filled_entry key value)
     (filled (stage3_position_aware_template_filling
                (Some (table_ :: others)) mapped_data template_structure)) ->
  ~ In key (unfilled (stage3_position_aware_template_filling
                        (Some (table_ :: others)) mapped_data
                        template_structure)).
Proof.
  intros Hk.
  destruct (stage3_unfold table_ others mapped_data template_structure)
    as (pm & st & _ & _ & _ & _ & ->).
  cbn [filled unfilled]. intros Hin Hun.
  apply validate_unfilled_spec in Hun as [_ Hun]. apply Hun.
  unfold filled_keys. rewrite <- (filled_entry_key key value Hk).
  now apply in_map.
Qed.

Lemma filled_key_not_reported_witness :
  ~ In "row_1_col_1_a"
       (unfilled (stage3_position_aware_template_filling
                    (Some [[[["a"]; [""]]]]) [("row_1_col_1_a", "v")]
                    [("row_1_col_1_a", "A")])).
Proof.
  apply (@filled_key_not_reported [[["a"]; [""]]] []
           [("row_1_col_1_a", "v")] [("row_1_col_1_a", "A")]
           "row_1_col_1_a" "v"); [reflexivity | now left].
Defined.



(** ** One [next_cell] field, from key to cell *)

Section OneField.

Lemma list_update_nth {A} (l : list A) (i : nat) (f : A -> A) (d : A) :
  list_update l i (fun _ => f (nth i l d)) = list_update l i f.
Proof.
  revert i; induction l as [|a l IH]; intros [|i]; cbn; auto.
  now rewrite IH.
Qed.

Lemma seq_split (n i : nat) :
  (i < n)%nat -> seq 0 n = (seq 0 i ++ i :: seq (S i) (n - S i))%list.
Proof.
  intros H. replace n with (i + (1 + (n - S i)))%nat at 1 by lia.
  rewrite seq_app. reflexivity.
Qed.

Variables (mapped_data : dict string) (pm : dict position_info).

(** A cell that is the coordinate of no descriptor, all of them being
    [next_cell] ones, is passed over. *)
Lemma visit_cell_off_target (r c : nat) :
  (forall key d, dict_get pm key = Some d ->
                 fill_type d = next_cell
                 /\ (row d <> Z.of_nat r \/ col d <> Z.of_nat c)) ->
  no_op (visit_cell mapped_data pm r c).
Proof.
  intros H. unfold visit_cell. apply no_op_after_current_row. intros row_.
  apply no_op_for_each. intros [key value] _ st.
  destruct (dict_get pm key) as [d|] eqn:Ed.
  - apply (@visit_field_no_match pm r c _ key value d st Ed).
    destruct (H key d Ed) as [Hf Hrc].
    rewrite (@match_next_cell _ _ _ d _ Hf). f_equal.
    destruct Hrc as [Hr|Hc].
    + now rewrite (proj2 (Z.eqb_neq (Z.of_nat r) (row d))) by congruence.
    + rewrite (proj2 (Z.eqb_neq (Z.of_nat c) (col d))) by congruence.
      now rewrite andb_false_r.
  - apply visit_field_skips. now right.
Qed.

Lemma visit_row_off_target (r : nat) :
  (forall key d, dict_get pm key = Some d ->
                 fill_type d = next_cell /\ row d <> Z.of_nat r) ->
  no_op (visit_row mapped_data pm r).
Proof.
  intros H. unfold visit_row. apply no_op_after_current_row. intros row_.
  apply no_op_for_each. intros c _. apply visit_cell_off_target.
  intros key d Hd. destruct (H key d Hd). auto.
Qed.

End OneField.

(** One field with a [next_cell] key, on a table that has the label at the
    coordinate of the key and a cell after it: the pass replaces the content
    of that next cell and changes no other cell.  When the library stores
    the value, the text of the next cell is the value, line ends read back
    as newlines, and the field is recorded as filled, once; when the write
    raises, the next cell holds what was stored before the failure and the
    field is recorded as skipped, once.  The pass returns true in both
    cases. *)
Theorem stage3_one_next_cell_field (table_ : table) (others : document)
    (template_structure : dict string) (key value : string)
    (d : position_info) (r c : nat) (label : cell) :
  PyStr.truthy value = true ->
  _parse_position_key key = Returned (Some d) ->
  fill_type d = next_cell ->
  row d = Z.of_nat r -> col d = Z.of_nat c ->
  nth_error (nth r table_ []) c = Some label ->
  PyStr.contains (field_name d) (PyStr.strip (cell_text label)) = true ->
  (S c < List.length (nth r table_ []))%nat ->
  stage3_position_aware_template_filling
    (Some (table_ :: others)) [(key, value)] template_structure
  = (let table' :=
       list_update table_ r
                   (fun row_ => list_update row_ (S c) (set_text value)) in
     let filled_ :=
       if writable value then [filled_entry key value] else [] in
     {| returned := true;
        saved := Some (table' :: others);
        in_memory := table' :: others;
        filled := filled_;
        skipped := if writable value then [] else [skipped_entry key];
        unfilled := _validate_unfilled_fields template_structure filled_ |})
  /\ (writable value = true ->
      forall old, cell_text (set_text value old) = line_ends_read_back value).
Proof.
  intros Hv Hd Hf Hr Hc Hlabel Hname Hnext.
  split.
  2:{ intros Hw old. unfold set_text, cell_text. cbn [PyStr.join].
      now apply written_of_writable. }
  assert (r < List.length table_)%nat as Hrow.
  { destruct (Nat.lt_ge_cases r (List.length table_)) as [H|H]; [exact H|].
    rewrite (nth_overflow _ _ H) in Hnext. cbn in Hnext. lia. }
  unfold stage3_position_aware_template_filling.
  cbn [build_position_matches]. rewrite Hv, Hd. cbn [rbind dict_set].
  assert (forall k d', dict_get [(key, d)] k = Some d' -> d' = d) as Hget.
  { intros k d'. cbn [dict_get]. destruct (String.eqb key k); congruence. }
  unfold scan_table. cbn [rows].
  rewrite (seq_split Hrow), for_each_single.
  2,3: intros r' Hin; apply in_seq in Hin; apply visit_row_off_target;
       intros k d' Hk; apply Hget in Hk; subst d'; split; [exact Hf | lia].
  unfold visit_row, mbind at 1, current_row at 1. cbn [rows].
  rewrite (@seq_split (List.length (nth r table_ [])) c) by lia.
  rewrite for_each_single.
  2,3: intros c' Hin; apply in_seq in Hin; apply visit_cell_off_target;
       intros k d' Hk; apply Hget in Hk; subst d'; split; [exact Hf | lia].
  unfold visit_cell, mbind at 1, current_row at 1. cbn [rows for_each].
  rewrite (nth_error_nth (nth r table_ []) c ([] : cell) Hlabel).
  unfold mbind at 1.
  rewrite (@visit_matching_field [(key, d)] r c _ key value d _ Hv).
  2:{ cbn [dict_get]. now rewrite String.eqb_refl. }
  2:{ cbn [rows]. rewrite (@match_next_cell _ _ _ d _ Hf).
      now rewrite Hr, Hc, !Z.eqb_refl, Hname. }
  cbn [rows]. rewrite (@fill_next_cell_eq c _ (Z.of_nat c) value d Hf).
  rewrite (proj2 (Z.ltb_lt (Z.of_nat c + 1) _)) by lia.
  unfold py_index. cbv zeta.
  rewrite !(proj2 (Z.ltb_ge (Z.of_nat c + 1) 0)) by lia.
  rewrite (proj2 (Z.leb_gt _ (Z.of_nat c + 1))) by lia.
  cbn [orb ret filled_fields skipped_fields rows app].
  replace (Z.to_nat (Z.of_nat c + 1)) with (S c) by lia.
  rewrite (list_update_nth table_ r
             (fun row_ => list_update row_ (S c) (set_text value)) []).
  now destruct (writable value).
Qed.

Lemma stage3_one_next_cell_field_witness :
  stage3_position_aware_template_filling
    (Some [[[["label"]; [""]]; [["other"]; ["kept"]]]])
    [("row_1_col_1_label", "v")] [("row_1_col_1_label", "the label")]
  = {| returned := true;
       saved := Some [[[["label"]; ["v"]]; [["other"]; ["kept"]]]];
       in_memory := [[[["label"]; ["v"]]; [["other"]; ["kept"]]]];
       filled := ["row_1_col_1_label -> v"];
       skipped := [];
       unfilled := [] |}.
Proof.
  apply (@stage3_one_next_cell_field
           [[["label"]; [""]]; [["other"]; ["kept"]]] []
           [("row_1_col_1_label", "the label")] "row_1_col_1_label" "v"
           {| row := 0; col := 0; context := None; field_name := "label";
              fill_type := next_cell |}
           0 0 ["label"]); try reflexivity.
  simpl. lia.
Defined.

(** ** The fallback mapper *)

Section FallbackFacts.

Lemma satisfies_direct (template_key : string) (item : string * string) :
  satisfies template_key item
  = PyStr.truthy (snd item) && direct_rule (fst item) template_key.
Proof.
  unfold satisfies. destruct (PyStr.truthy (snd item)); [|reflexivity].
  cbn [andb].
  destruct (direct_rule (fst item) template_key) eqn:Ed; [reflexivity|].
  rewrite <- direct_rule_eq in Ed. apply orb_false_iff in Ed as [_ Ea].
  destruct (semantic_rule (fst item) template_key) eqn:Es; [|reflexivity].
  apply semantic_rule_any_rule in Es. congruence.
Qed.

Lemma fallback_get (template_structure input_data : dict string)
    (template_key : string) :
  dict_get (_fallback_field_mapping template_structure input_data)
           template_key
  = if existsb (String.eqb template_key) (dict_keys template_structure)
    then first_satisfying input_data template_key
    else None.
Proof.
  unfold _fallback_field_mapping. rewrite fallback_fold_spec.
  destruct (first_satisfying input_data template_key);
    now destruct (existsb _ _).
Qed.

Lemma dict_keys_set {V} (m : dict V) (k : string) (v : V) :
  dict_keys (dict_set m k v)
  = if existsb (String.eqb k) (dict_keys m) then dict_keys m
    else (dict_keys m ++ [k])%list.
Proof.
  unfold dict_keys. induction m as [|[k' v'] m IH]; cbn; [reflexivity|].
  rewrite (String.eqb_sym k k').
  destruct (String.eqb k' k) eqn:E; cbn; [reflexivity|].
  rewrite IH. now destruct (existsb _ _).
Qed.

Lemma dict_set_values {V} (Q : V -> Prop) (m : dict V) (k : string) (v : V) :
  Q v -> Forall (fun kv => Q (snd kv)) m ->
  Forall (fun kv => Q (snd kv)) (dict_set m k v).
Proof.
  intros Hv Hm. induction Hm as [|[k' v'] m Hx Hm IH]; cbn.
  - now repeat constructor.
  - destruct (String.eqb k' k); constructor; auto.
Qed.

Variable input_data : dict string.

(** The mapping while the template keys are gone through: its keys are
    distinct keys gone through, its values are non-empty. *)
Lemma fallback_fold_invariant (keys : list string) (m m' : dict string) :
  NoDup (dict_keys m) ->
  Forall (fun kv => PyStr.truthy (snd kv) = true) m ->
  fold_left (fun mapped_data key => input_loop input_data key mapped_data)
            keys m = m' ->
  NoDup (dict_keys m')
  /\ incl (dict_keys m') (dict_keys m ++ keys)
  /\ Forall (fun kv => PyStr.truthy (snd kv) = true) m'.
Proof.
  revert m; induction keys as [|key keys IH]; intros m Hnd Hv;
    cbn [fold_left]; intros E.
  - subst m'. repeat split; auto. rewrite app_nil_r. apply incl_refl.
  - rewrite input_loop_spec in E.
    destruct (first_satisfying input_data key) as [value|] eqn:Ef.
    + assert (PyStr.truthy value = true) as Hval.
      { unfold first_satisfying in Ef.
        destruct (find (satisfies key) input_data) as [x|] eqn:Ex;
          [|discriminate].
        injection Ef as <-. apply find_some in Ex as [_ Ex].
        unfold satisfies in Ex. now apply andb_true_iff in Ex as [Ex _]. }
      destruct (IH (dict_set m key value)) as (H1 & H2 & H3); [| |exact E|].
      * rewrite dict_keys_set.
        destruct (existsb (String.eqb key) (dict_keys m)) eqn:Ein; [exact Hnd|].
        apply NoDup_app; [exact Hnd | repeat constructor; intros [] |].
        intros x Hx [<-|[]].
        apply existsb_eqb_In in Hx. congruence.
      * now apply (@dict_set_values _ (fun v => PyStr.truthy v = true)).
      * repeat split; auto.
        intros x Hx. apply H2 in Hx. rewrite dict_keys_set in Hx.
        destruct (existsb (String.eqb key) (dict_keys m)).
        -- apply in_app_iff in Hx as [Hx|Hx]; apply in_app_iff;
             [now left | right; now right].
        -- rewrite <- app_assoc in Hx. exact Hx.
    + destruct (IH m Hnd Hv E) as (H1 & H2 & H3). repeat split; auto.
      intros x Hx. apply H2 in Hx.
      apply in_app_iff in Hx as [Hx|Hx]; apply in_app_iff;
        [now left | right; now right].
Qed.

End FallbackFacts.

(** Where a mapped value comes from.  A template key the fallback mapper
    maps is a key of the template structure, and its value is the non-empty
    value of an input field whose key is a substring of the template key,
    or any input field at all when the template key holds a synonym. *)
Theorem fallback_entry_origin (template_structure input_data : dict string)
    (template_key value : string) :
  dict_get (_fallback_field_mapping template_structure input_data)
           template_key = Some value ->
  In template_key (dict_keys template_structure)
  /\ PyStr.truthy value = true
  /\ exists input_key,
      In (input_key, value) input_data
      /\ (PyStr.contains input_key template_key = true
          \/ any_rule_in template_key = true).
Proof.
  rewrite fallback_get.
  destruct (existsb _ _) eqn:Ek; [|discriminate].
  apply existsb_eqb_In in Ek. unfold first_satisfying.
  destruct (find (satisfies template_key) input_data) as [[ik v]|] eqn:Ef;
    [|discriminate].
  intros [= <-]. apply find_some in Ef as [Hin Hs].
  rewrite satisfies_direct in Hs. cbn [fst snd] in Hs.
  apply andb_true_iff in Hs as [Hv Hd]. rewrite <- direct_rule_eq in Hd.
  apply orb_true_iff in Hd. split; [exact Ek|]. split; [exact Hv|].
  now exists ik.
Qed.

Lemma fallback_entry_origin_witness :
  In "row_1_col_1_id" (dict_keys [("row_1_col_1_id", "x")])
  /\ PyStr.truthy "1" = true
  /\ exists input_key,
      In (input_key, "1") [("e", ""); ("q", "1"); ("id", "2")]
      /\ (PyStr.contains input_key "row_1_col_1_id" = true
          \/ any_rule_in "row_1_col_1_id" = true).
Proof.
  exact (@fallback_entry_origin [("row_1_col_1_id", "x")]
           [("e", ""); ("q", "1"); ("id", "2")] "row_1_col_1_id" "1" eq_refl).
Defined.

(** Without a non-empty input value the fallback mapper returns the empty
    mapping. *)
Theorem fallback_without_values (template_structure input_data : dict string) :
  (forall key value, In (key, value) input_data ->
                     PyStr.truthy value = false) ->
  _fallback_field_mapping template_structure input_data = [].
Proof.
  intros H. unfold _fallback_field_mapping.
  generalize (@nil (string * string)) as m.
  induction (dict_keys template_structure) as [|key keys IH]; intros m;
    cbn [fold_left].
  - reflexivity.
  - rewrite input_loop_spec. unfold first_satisfying.
    rewrite find_nothing; [apply IH|].
    intros [k v] Hin. unfold satisfies. cbn [snd].
    now rewrite (H k v Hin).
Qed.

Lemma fallback_without_values_witness :
  _fallback_field_mapping [("row_1_col_1_id", "x")] [("id", "")] = [].
Proof.
  apply fallback_without_values.
  intros key value [[= <- <-] | []]. reflexivity.
Defined.

(** A template key that holds a synonym of any group is mapped to the first
    non-empty input value, whatever the input keys are: every such template
    key receives the same value. *)
Theorem fallback_synonym_key (template_structure input_data : dict string)
    (template_key : string) :
  any_rule_in template_key = true ->
  In template_key (dict_keys template_structure) ->
  dict_get (_fallback_field_mapping template_structure input_data)
           template_key
  = option_map snd (find (fun item => PyStr.truthy (snd item)) input_data).
Proof.
  intros Ha Hk. apply existsb_eqb_In in Hk.
  rewrite fallback_get, Hk. unfold first_satisfying. f_equal.
  induction input_data as [|item items IH]; cbn [find]; [reflexivity|].
  rewrite satisfies_direct, <- direct_rule_eq, Ha, orb_true_r, andb_true_r.
  now rewrite IH.
Qed.

Lemma fallback_synonym_key_witness :
  dict_get (_fallback_field_mapping
              [("row_1_col_1_id", "x"); ("row_2_col_1_name", "y")]
              [("address", "Main St"); ("id", "7")])
           "row_2_col_1_name"
  = Some "Main St".
Proof.
  apply (@fallback_synonym_key
           [("row_1_col_1_id", "x"); ("row_2_col_1_name", "y")]
           [("address", "Main St"); ("id", "7")] "row_2_col_1_name");
    [reflexivity | simpl; auto].
Defined.

(** The loop over the semantic groups never records a mapping: it is run
    only after the direct test failed, and then no group has a synonym in
    the template key. *)
Theorem semantic_loop_records_nothing (template_key input_key input_value
    : string) (mapped_data : dict string) :
  PyStr.contains input_key template_key || any_rule_in template_key = false ->
  semantic_loop mapping_rules template_key input_key input_value mapped_data
  = mapped_data.
Proof.
  intros H. apply orb_false_iff in H as [_ Ha].
  rewrite semantic_loop_spec.
  fold (semantic_rule input_key template_key).
  destruct (semantic_rule input_key template_key) eqn:Es; [|reflexivity].
  apply semantic_rule_any_rule in Es. congruence.
Qed.

Lemma semantic_loop_records_nothing_witness :
  semantic_loop mapping_rules "row_1_col_1_label" "number" "7" [] = [].
Proof.
  apply (@semantic_loop_records_nothing "row_1_col_1_label" "number" "7" []).
  reflexivity.
Defined.

Lemma fallback_invariant (template_structure input_data : dict string) :
  NoDup (dict_keys (_fallback_field_mapping template_structure input_data))
  /\ incl (dict_keys (_fallback_field_mapping template_structure input_data))
          (dict_keys template_structure)
  /\ Forall (fun item => PyStr.truthy (snd item) = true)
            (_fallback_field_mapping template_structure input_data).
Proof.
  destruct (@fallback_fold_invariant input_data
              (dict_keys template_structure) []
              (_fallback_field_mapping template_structure input_data))
    as (H1 & H2 & H3); [constructor | constructor | reflexivity |].
  cbn [dict_keys map app] in H2. auto.
Qed.

(** The mapping the fallback mapper returns has distinct keys, all of them
    template keys, and non-empty values only; it has no more entries than
    the template structure. *)
Theorem fallback_mapping_shape (template_structure input_data : dict string) :
  NoDup (dict_keys (_fallback_field_mapping template_structure input_data))
  /\ incl (dict_keys (_fallback_field_mapping template_structure input_data))
          (dict_keys template_structure)
  /\ Forall (fun item => PyStr.truthy (snd item) = true)
            (_fallback_field_mapping template_structure input_data)
  /\ (List.length (_fallback_field_mapping template_structure input_data)
      <= List.length template_structure)%nat.
Proof.
  destruct (fallback_invariant template_structure input_data)
    as (H1 & H2 & H3).
  repeat split; auto.
  pose proof (NoDup_incl_length H1 H2) as Hl.
  unfold dict_keys in Hl. now rewrite !length_map in Hl.
Qed.

(** ** The logged statistics *)

(** On the mapping of the fallback mapper, the statistics count every
    mapped field as one with a value, and the unmapped template keys are
    the template keys for which no input field satisfies a rule. *)
Theorem statistics_of_fallback (template_structure input_data : dict string) :
  let mapped_data := _fallback_field_mapping template_structure input_data in
  let stats :=
    _log_mapping_statistics template_structure input_data mapped_data in
  mapped_with_values stats = mapped_count stats
  /\ forall key,
      In key (unmapped_template stats)
      <-> In key (dict_keys template_structure)
          /\ forall item, In item input_data -> satisfies key item = false.
Proof.
  cbv zeta. unfold _log_mapping_statistics.
  cbn [mapped_with_values mapped_count unmapped_template]. split.
  - f_equal. apply filter_all.
    destruct (fallback_invariant template_structure input_data)
      as (_ & _ & H).
    rewrite Forall_forall in H. exact H.
  - intros key. rewrite filter_In.
    assert (In key (dict_keys template_structure) ->
            (match dict_get (_fallback_field_mapping template_structure
                                                     input_data) key with
             | Some value => negb (PyStr.truthy value)
             | None => true
             end = true
             <-> forall item, In item input_data ->
                              satisfies key item = false)) as H; [|tauto].
    intros Hk. apply existsb_eqb_In in Hk. rewrite fallback_get, Hk.
    unfold first_satisfying.
    destruct (find (satisfies key) input_data) as [x|] eqn:Ef; cbn.
    + apply find_some in Ef as [Hin Hs]. split.
      * unfold satisfies in Hs. apply andb_true_iff in Hs as [Hv _].
        rewrite Hv. discriminate.
      * intros H. rewrite (H x Hin) in Hs. discriminate.
    + split; [|reflexivity]. intros _ item. now apply find_none.
Qed.

(** The four counters of the field statistics add up to the number of
    template keys: every key is counted in one category. *)
Theorem field_statistics_total (template_structure : dict string) :
  let counts := _log_field_statistics template_structure in
  (basic_info counts + review_situation counts + personnel counts
   + other counts = List.length template_structure)%nat.
Proof.
  cbv zeta. unfold _log_field_statistics.
  assert (forall keys counts,
             let counts' := fold_left count_field keys counts in
             (basic_info counts' + review_situation counts'
              + personnel counts' + other counts'
              = basic_info counts + review_situation counts
                + personnel counts + other counts + List.length keys)%nat)
    as H.
  { induction keys as [|key keys IH]; intros counts; cbn [fold_left].
    - cbn. lia.
    - cbv zeta in *. rewrite IH. unfold count_field.
      destruct (any_in _ key); [cbn; lia|].
      destruct (PyStr.contains _ key); [cbn; lia|].
      destruct (any_in _ key); cbn; lia. }
  cbv zeta in H. rewrite H. unfold dict_keys. cbn. now rewrite length_map.
Qed.

(** ** One [same_cell_with_context] field, from key to cell *)

Section OneSameCellField.

Lemma for_each_one_at {A} (before after : list A) (a : A)
    (body : A -> M unit) (st st1 : fill_state) :
  (forall x, In x before -> body x st = (Returned tt, st)) ->
  body a st = (Returned tt, st1) ->
  (forall x, In x after -> body x st1 = (Returned tt, st1)) ->
  for_each (before ++ a :: after) body st = (Returned tt, st1).
Proof.
  intros Hb Ha Hafter.
  assert (forall l s, (forall x, In x l -> body x s = (Returned tt, s)) ->
                      for_each l body s = (Returned tt, s)) as Hnop.
  { induction l as [|x l IH]; intros s Hl; cbn [for_each]; [reflexivity|].
    unfold mbind. rewrite (Hl x) by now left.
    apply IH. intros y Hy. apply Hl. now right. }
  induction before as [|x before IH]; cbn [for_each app].
  - unfold mbind. rewrite Ha. now apply Hnop.
  - unfold mbind at 1. rewrite (Hb x) by now left.
    apply IH. intros y Hy. apply Hb. now right.
Qed.

Lemma nth_list_update_same {A} (l : list A) (i : nat) (f : A -> A) (d : A) :
  (i < List.length l)%nat -> nth i (list_update l i f) d = f (nth i l d).
Proof.
  revert i; induction l as [|a l IH]; intros [|i] H; cbn in *; try lia; auto.
  apply IH. lia.
Qed.

Lemma match_other_row (row_idx cell_idx : Z) (text : string)
    (d : position_info) (row_ : table_row) :
  row d <> row_idx ->
  _is_position_match row_idx cell_idx text d row_ = Returned false.
Proof.
  intros H. apply Z.eqb_neq in H. rewrite Z.eqb_sym in H.
  unfold _is_position_match. rewrite H. cbn [andb].
  destruct (String.eqb (fill_type d) next_cell); [reflexivity|].
  now destruct (String.eqb (fill_type d) same_cell_with_context).
Qed.

Lemma visit_row_other_row (mapped_data : dict string)
    (pm : dict position_info) (r : nat) :
  (forall key d, dict_get pm key = Some d -> row d <> Z.of_nat r) ->
  no_op (visit_row mapped_data pm r).
Proof.
  intros H. unfold visit_row. apply no_op_after_current_row. intros row_.
  apply no_op_for_each. intros c _.
  unfold visit_cell. apply no_op_after_current_row. intros row1.
  apply no_op_for_each. intros [key value] _ st.
  destruct (dict_get pm key) as [d|] eqn:Ed.
  - apply (@visit_field_no_match pm r c _ key value d st Ed).
    apply match_other_row. eauto.
  - apply visit_field_skips. now right.
Qed.

End OneSameCellField.

(** ** The order of the scan *)

Section ScanOrder.

Variables (mapped_data : dict string) (pm : dict position_info).

Lemma for_each_app {A} (l1 l2 : list A) (body : A -> M unit)
    (st : fill_state) :
  for_each (l1 ++ l2)%list body st
  = (_ <~ for_each l1 body ;; for_each l2 body) st.
Proof.
  revert st. induction l1 as [|a l1 IH]; intros st; [reflexivity|].
  cbn [app for_each]. unfold mbind in *.
  destruct (body a st) as [[u|e] st1]; [apply IH | reflexivity].
Qed.

Lemma for_each_map {A B} (f : A -> B) (l : list A) (body : B -> M unit)
    (st : fill_state) :
  for_each (map f l) body st = for_each l (fun a => body (f a)) st.
Proof.
  revert st. induction l as [|a l IH]; intros st; [reflexivity|].
  cbn [map for_each]. unfold mbind.
  destruct (body (f a) st) as [[u|e] st1]; [apply IH | reflexivity].
Qed.

(** A visit keeps the shape of the table, whether it returns or raises. *)
Lemma visit_field_keeps_shape (sh : list nat) (r c : nat) (text : string)
    (item : string * string) :
  keeps (fun st => shape (rows st) = sh) (visit_field pm r c text item).
Proof.
  destruct item as [key value]. intros st Hst. unfold visit_field.
  destruct (negb _); [exact Hst|].
  destruct (dict_get pm key) as [d|]; [|exact Hst].
  cbv [mbind current_row lift].
  destruct (_is_position_match _ _ _ d _) as [[|]|e]; [|exact Hst|exact Hst].
  cbv [fill_cell mbind current_row].
  pose proof (@fill_length c (nth r (rows st) []) (Z.of_nat c) value d) as Hl.
  destruct (_fill_cell_by_position _ _ _ _ _) as [success row'].
  cbn [snd] in Hl.
  destruct success; cbn [store_row ret append_filled append_skipped snd rows];
    (rewrite shape_update; [exact Hst | now rewrite Hl, shape_nth]).
Qed.

Lemma visit_cell_keeps_shape (sh : list nat) (r c : nat) :
  keeps (fun st => shape (rows st) = sh) (visit_cell mapped_data pm r c).
Proof.
  unfold visit_cell. apply keeps_bind; [apply keeps_current_row|].
  intros row_. apply keeps_for_each. intros item _.
  apply visit_field_keeps_shape.
Qed.

(** The visit of a row is the visit of its cells, from the left. *)
Lemma visit_row_flat (sh : list nat) (r : nat) (st : fill_state) :
  shape (rows st) = sh ->
  visit_row mapped_data pm r st
  = for_each (map (pair r) (seq 0 (nth r sh 0%nat)))
             (visit_at mapped_data pm) st.
Proof.
  intros Hst. unfold visit_row, mbind, current_row.
  now rewrite shape_nth, Hst, for_each_map.
Qed.

Lemma visit_rows_flat (sh : list nat) (l : list nat) :
  forall st,
    shape (rows st) = sh ->
    for_each l (visit_row mapped_data pm) st
    = for_each (flat_map (fun r => map (pair r) (seq 0 (nth r sh 0%nat))) l)
               (visit_at mapped_data pm) st.
Proof.
  induction l as [|r l IH]; intros st Hst; [reflexivity|].
  cbn [flat_map for_each]. rewrite for_each_app. unfold mbind.
  rewrite (@visit_row_flat sh r st Hst).
  assert (keeps (fun st => shape (rows st) = sh)
            (for_each (map (pair r) (seq 0 (nth r sh 0%nat)))
                      (visit_at mapped_data pm))) as Hk.
  { apply keeps_for_each. intros rc _. apply visit_cell_keeps_shape. }
  specialize (Hk st Hst).
  destruct (for_each (map (pair r) _) _ st) as [[u|e] st1];
    [apply IH; exact Hk | reflexivity].
Qed.

(** The scan is the visit of every cell of the table, rows from the top and
    the cells of a row from the left. *)
Lemma scan_table_flat (st : fill_state) :
  scan_table mapped_data pm st
  = for_each (coordinates (shape (rows st))) (visit_at mapped_data pm) st.
Proof.
  unfold scan_table, coordinates.
  replace (List.length (shape (rows st))) with (List.length (rows st))
    by (unfold shape; now rewrite length_map).
  now apply visit_rows_flat.
Qed.

(** The visit of a cell is the visit of every field, in the order of the
    mapped data, with the text that the cell has on arrival. *)
Lemma visit_cell_fields (r c : nat) (st : fill_state) :
  visit_cell mapped_data pm r c st
  = for_each mapped_data
      (visit_field pm r c
         (PyStr.strip (cell_text (nth c (nth r (rows st) []) []))))
      st.
Proof. reflexivity. Qed.

(** The visit of a field with a value and a descriptor: the match predicate
    is evaluated on the row as it is now, and the filler is called when it
    holds. *)
Lemma visit_candidate_field (r c : nat) (text key value : string)
    (d : position_info) (st : fill_state) :
  PyStr.truthy value = true ->
  dict_get pm key = Some d ->
  visit_field pm r c text (key, value) st
  = match _is_position_match (Z.of_nat r) (Z.of_nat c) text d
                             (nth r (rows st) []) with
    | Returned true =>
        let (success, row') :=
          _fill_cell_by_position c (nth r (rows st) []) (Z.of_nat c)
                                 value d in
        (Returned tt,
         {| rows := list_update (rows st) r (fun _ => row');
            filled_fields :=
              if success
              then (filled_fields st ++ [filled_entry key value])%list
              else filled_fields st;
            skipped_fields :=
              if success then skipped_fields st
              else (skipped_fields st ++ [skipped_entry key])%list |})
    | Returned false => (Returned tt, st)
    | Raised e => (Raised e, st)
    end.
Proof.
  intros Hv Hd.
  destruct (_is_position_match _ _ _ d _) as [[|]|e] eqn:Em.
  - now apply visit_matching_field.
  - now apply visit_field_no_match with (d := d).
  - unfold visit_field. rewrite Hv, Hd.
    cbv [negb mbind current_row lift]. now rewrite Em.
Qed.

End ScanOrder.

Section Candidates.

(** The dict of descriptors holds every candidate field. *)
Lemma build_position_matches_complete (items : dict string) :
  forall pm0 pm key d,
    build_position_matches items pm0 = Returned pm ->
    (dict_get pm0 key = Some d /\ _parse_position_key key = Returned (Some d))
    \/ (exists value, candidate items key value d) ->
    dict_get pm key = Some d.
Proof.
  unfold candidate.
  induction items as [|[k v] items IH]; intros pm0 pm key d;
    cbn [build_position_matches].
  - intros [= <-] [[H _] | (value & [] & _)]. exact H.
  - destruct (PyStr.truthy v) eqn:Ev.
    + destruct (parse_position_key_returns k) as [[dk|] Hk]; rewrite Hk;
        cbn [rbind]; intros Hb H; apply (IH _ _ key d Hb).
      * destruct H as [[Hg Hp] | (value & [Heq|Hin] & Hv & Hp)].
        -- left. split; [|exact Hp].
           destruct (String.eqb_spec key k) as [->|Hne].
           ++ rewrite dict_get_set_same. congruence.
           ++ now rewrite dict_get_set_other.
        -- injection Heq as -> ->. left. split; [|exact Hp].
           rewrite dict_get_set_same. congruence.
        -- right. exists value. auto.
      * destruct H as [H | (value & [Heq|Hin] & Hv & Hp)].
        -- now left.
        -- injection Heq as -> ->. congruence.
        -- right. exists value. auto.
    + intros Hb H. apply (IH _ _ key d Hb).
      destruct H as [H | (value & [Heq|Hin] & Hv & Hp)].
      * now left.
      * injection Heq as -> ->. congruence.
      * right. exists value. auto.
Qed.

(** The dict of descriptors that the pass builds holds the candidate
    fields and nothing else. *)
Lemma position_matches_are_candidates (mapped_data : dict string)
    (pm : dict position_info) (key : string) (d : position_info) :
  build_position_matches mapped_data [] = Returned pm ->
  dict_get pm key = Some d <-> exists value, candidate mapped_data key value d.
Proof.
  intros Hb. split.
  - intros Hg.
    destruct (build_position_matches_get _ _ _ Hb Hg) as [H|H];
      [discriminate | exact H].
  - intros H.
    apply (@build_position_matches_complete mapped_data [] pm key d Hb).
    now right.
Qed.

(** With the dict that the pass builds, the scan runs to its end. *)
Lemma scan_of_built_returns (mapped_data : dict string)
    (pm : dict position_info) (st : fill_state) :
  build_position_matches mapped_data [] = Returned pm ->
  exists st',
    scan_table mapped_data pm st = (Returned tt, st')
    /\ shape (rows st') = shape (rows st).
Proof.
  intros Hb.
  destruct (@build_position_matches_decoded mapped_data []
              decoded_matches_nil) as (pm' & Hb' & Hpm).
  rewrite Hb in Hb'. injection Hb' as <-.
  destruct (@runs_scan_table (shape (rows st)) pm Hpm mapped_data st eq_refl)
    as ([] & st' & Hscan & Hshape & _).
  exists st'. now split.
Qed.

End Candidates.

Section TwoCells.

Lemma list_update_twice {A} (l : list A) (i : nat) (a b : A) :
  list_update (list_update l i (fun _ => a)) i (fun _ => b)
  = list_update l i (fun _ => b).
Proof.
  revert i; induction l as [|x l IH]; intros [|i]; cbn; auto.
  now rewrite IH.
Qed.

Lemma for_each_two_at {A} (l0 l1 l2 : list A) (a b : A)
    (body : A -> M unit) (st st1 st2 : fill_state) :
  (forall x, In x l0 -> body x st = (Returned tt, st)) ->
  body a st = (Returned tt, st1) ->
  (forall x, In x l1 -> body x st1 = (Returned tt, st1)) ->
  body b st1 = (Returned tt, st2) ->
  (forall x, In x l2 -> body x st2 = (Returned tt, st2)) ->
  for_each (l0 ++ a :: l1 ++ b :: l2) body st = (Returned tt, st2).
Proof.
  intros H0 Ha H1 Hb H2.
  change (a :: l1 ++ b :: l2)%list with ((a :: l1) ++ b :: l2)%list.
  rewrite app_assoc, for_each_app. unfold mbind.
  rewrite (@for_each_one_at A l0 l1 a body st st1 H0 Ha H1).
  apply (@for_each_one_at A [] l2 b body st1 st2); auto. intros x [].
Qed.

Lemma seq_split_two (n i j : nat) :
  (i < j < n)%nat ->
  seq 0 n
  = (seq 0 i ++ i :: seq (S i) (j - S i) ++ j :: seq (S j) (n - S j))%list.
Proof.
  intros H. rewrite (@seq_split n i) by lia. do 2 f_equal.
  replace (n - S i)%nat with ((j - S i) + (1 + (n - S j)))%nat by lia.
  rewrite seq_app. replace (S i + (j - S i))%nat with j by lia.
  reflexivity.
Qed.

(** One [same_cell_with_context] field and a row in which two cells satisfy
    the match predicate when the scan reaches them: the pass fills both. *)
Lemma two_matching_cells (table_ : table) (others : document)
    (template_structure : dict string) (key value : string)
    (d : position_info) (r c1 c2 : nat) :
  PyStr.truthy value = true ->
  _parse_position_key key = Returned (Some d) ->
  row d = Z.of_nat r ->
  fill_type d = same_cell_with_context ->
  (r < List.length table_)%nat ->
  (c1 < c2 < List.length (nth r table_ []))%nat ->
  let row0 := nth r table_ [] in
  let row1 := list_update row0 c1 (add_paragraph value) in
  let row2 := list_update row1 c2 (add_paragraph value) in
  (forall c, (c < c1)%nat -> matches_at d r row0 c = Returned false) ->
  matches_at d r row0 c1 = Returned true ->
  (forall c, (c1 < c < c2)%nat -> matches_at d r row1 c = Returned false) ->
  matches_at d r row1 c2 = Returned true ->
  (forall c, (c2 < c < List.length row0)%nat ->
             matches_at d r row2 c = Returned false) ->
  stage3_position_aware_template_filling
    (Some (table_ :: others)) [(key, value)] template_structure
  = let table' := list_update table_ r (fun _ => row2) in
    let filled_ :=
      if writable value
      then [filled_entry key value; filled_entry key value] else [] in
    {| returned := true;
       saved := Some (table' :: others);
       in_memory := table' :: others;
       filled := filled_;
       skipped := if writable value then []
                  else [skipped_entry key; skipped_entry key];
       unfilled := _validate_unfilled_fields template_structure filled_ |}.
Proof.
  intros Hv Hd Hr Hf Hrow Hcol row0 row1 row2 H0 H1 H12 H2 H3.
  unfold matches_at in *.
  unfold stage3_position_aware_template_filling.
  cbn [build_position_matches]. rewrite Hv, Hd. cbn [rbind dict_set].
  assert (forall k d', dict_get [(key, d)] k = Some d' -> d' = d) as Hget.
  { intros k d'. cbn [dict_get]. destruct (String.eqb key k); congruence. }
  assert (dict_get [(key, d)] key = Some d) as Hkey.
  { cbn [dict_get]. now rewrite String.eqb_refl. }
  unfold scan_table. cbn [rows].
  rewrite (seq_split Hrow), for_each_single.
  2,3: intros r' Hin; apply in_seq in Hin; apply visit_row_other_row;
       intros k d' Hk; apply Hget in Hk; subst d'; lia.
  unfold visit_row, mbind at 1, current_row at 1. cbn [rows].
  rewrite (@seq_split_two _ c1 c2 Hcol).
  rewrite (@for_each_two_at _ (seq 0 c1) _ _ c1 c2 _ _
             {| rows := list_update table_ r (fun _ => row1);
                filled_fields :=
                  if writable value then [filled_entry key value] else [];
                skipped_fields :=
                  if writable value then [] else [skipped_entry key] |}
             {| rows := list_update table_ r (fun _ => row2);
                filled_fields :=
                  if writable value
                  then [filled_entry key value; filled_entry key value]
                  else [];
                skipped_fields :=
                  if writable value then []
                  else [skipped_entry key; skipped_entry key] |}).
  - reflexivity.
  - intros c Hin. apply in_seq in Hin.
    unfold visit_cell, mbind at 1, current_row at 1. cbn [rows for_each].
    unfold mbind.
    rewrite (@visit_field_no_match [(key, d)] r c _ key value d _ Hkey);
      [reflexivity|].
    cbn [rows]. apply H0. lia.
  - unfold visit_cell, mbind at 1, current_row at 1. cbn [rows for_each].
    unfold mbind at 1.
    rewrite (@visit_matching_field [(key, d)] r c1 _ key value d _ Hv Hkey)
      by exact H1.
    cbn [rows]. rewrite (@fill_same_cell_eq c1 _ (Z.of_nat c1) value d Hf).
    cbn [ret filled_fields skipped_fields app].
    now destruct (writable value).
  - intros c Hin. apply in_seq in Hin.
    unfold visit_cell, mbind at 1, current_row at 1. cbn [rows for_each].
    unfold mbind.
    rewrite (@visit_field_no_match [(key, d)] r c _ key value d _ Hkey);
      [reflexivity|].
    cbn [rows]. rewrite nth_list_update_same by exact Hrow.
    apply H12. lia.
  - unfold visit_cell, mbind at 1, current_row at 1. cbn [rows for_each].
    unfold mbind at 1.
    rewrite (@visit_matching_field [(key, d)] r c2 _ key value d _ Hv Hkey)
      by (cbn [rows]; rewrite nth_list_update_same by exact Hrow; exact H2).
    cbn [rows]. rewrite (@fill_same_cell_eq c2 _ (Z.of_nat c2) value d Hf).
    cbn [ret filled_fields skipped_fields].
    rewrite nth_list_update_same by exact Hrow.
    rewrite list_update_twice.
    now destruct (writable value).
  - intros c Hin. apply in_seq in Hin.
    unfold visit_cell, mbind at 1, current_row at 1. cbn [rows for_each].
    unfold mbind.
    rewrite (@visit_field_no_match [(key, d)] r c _ key value d _ Hkey);
      [reflexivity|].
    cbn [rows]. rewrite nth_list_update_same by exact Hrow.
    apply H3. unfold row0. lia.
Qed.

End TwoCells.

(** C1, as the code has it.  The fill pass marks no field as resolved.  The
    scan never reads the filled and skipped lists.  It visits every cell of
    the table, rows from the top and the cells of a row from the left, and
    at every cell every field of the mapped data, in order, with the text
    the cell has on arrival.  The descriptors it looks fields up in are
    those of the candidate fields, all of them, and with them the scan runs
    to its last cell.  At a cell, a field with a value and a descriptor has
    the match predicate evaluated on the row as it is now, whatever was
    recorded before: where it holds the field is handed to the filler and
    recorded as filled or skipped, where it does not the state is left as it
    is.  A [next_cell] descriptor matches at its own coordinate only, so at
    one cell of a scan at most.  A [same_cell_with_context] descriptor that
    matches at two cells of its row when the scan reaches them has both
    filled and is recorded twice. *)
Theorem scan_marks_nothing_resolved :
  (forall mapped_data position_matches,
      log_blind (scan_table mapped_data position_matches))
  /\ (forall mapped_data position_matches st,
         scan_table mapped_data position_matches st
         = for_each (coordinates (shape (rows st)))
                    (visit_at mapped_data position_matches) st)
  /\ (forall mapped_data position_matches row_idx cell_idx st,
         visit_cell mapped_data position_matches row_idx cell_idx st
         = for_each mapped_data
             (visit_field position_matches row_idx cell_idx
                (PyStr.strip
                   (cell_text (nth cell_idx (nth row_idx (rows st) []) []))))
             st)
  /\ (forall mapped_data position_matches key d,
         build_position_matches mapped_data [] = Returned position_matches ->
         dict_get position_matches key = Some d
         <-> exists value, candidate mapped_data key value d)
  /\ (forall mapped_data position_matches st,
         build_position_matches mapped_data [] = Returned position_matches ->
         exists st',
           scan_table mapped_data position_matches st = (Returned tt, st')
           /\ shape (rows st') = shape (rows st))
  /\ (forall position_matches row_idx cell_idx cell_text_ key value d st,
         PyStr.truthy value = true ->
         dict_get position_matches key = Some d ->
         visit_field position_matches row_idx cell_idx cell_text_ (key, value) st
         = match _is_position_match (Z.of_nat row_idx) (Z.of_nat cell_idx)
                                    cell_text_ d
                                    (nth row_idx (rows st) []) with
           | Returned true =>
               let (success, row') :=
                 _fill_cell_by_position cell_idx (nth row_idx (rows st) [])
                                        (Z.of_nat cell_idx) value d in
               (Returned tt,
                {| rows := list_update (rows st) row_idx (fun _ => row');
                   filled_fields :=
                     if success
                     then (filled_fields st ++ [filled_entry key value])%list
                     else filled_fields st;
                   skipped_fields :=
                     if success then skipped_fields st
                     else (skipped_fields st ++ [skipped_entry key])%list |})
           | Returned false => (Returned tt, st)
           | Raised e => (Raised e, st)
           end)
  /\ (forall d r c r' c' t t' row_ row',
         fill_type d = next_cell ->
         _is_position_match r c t d row_ = Returned true ->
         _is_position_match r' c' t' d row' = Returned true ->
         r = r' /\ c = c')
  /\ (forall table_ others template_structure key value d r c1 c2,
         PyStr.truthy value = true ->
         _parse_position_key key = Returned (Some d) ->
         row d = Z.of_nat r ->
         fill_type d = same_cell_with_context ->
         (r < List.length table_)%nat ->
         (c1 < c2 < List.length (nth r table_ []))%nat ->
         let row0 := nth r table_ [] in
         let row1 := list_update row0 c1 (add_paragraph value) in
         let row2 := list_update row1 c2 (add_paragraph value) in
         (forall c, (c < c1)%nat -> matches_at d r row0 c = Returned false) ->
         matches_at d r row0 c1 = Returned true ->
         (forall c, (c1 < c < c2)%nat ->
                    matches_at d r row1 c = Returned false) ->
         matches_at d r row1 c2 = Returned true ->
         (forall c, (c2 < c < List.length row0)%nat ->
                    matches_at d r row2 c = Returned false) ->
         stage3_position_aware_template_filling
           (Some (table_ :: others)) [(key, value)] template_structure
         = let table' := list_update table_ r (fun _ => row2) in
           let filled_ :=
             if writable value
             then [filled_entry key value; filled_entry key value]
             else [] in
           {| returned := true;
              saved := Some (table' :: others);
              in_memory := table' :: others;
              filled := filled_;
              skipped := if writable value then []
                         else [skipped_entry key; skipped_entry key];
              unfilled :=
                _validate_unfilled_fields template_structure filled_ |}).
Proof.
  split; [exact log_blind_scan_table|].
  split; [exact scan_table_flat|].
  split; [exact visit_cell_fields|].
  split; [exact position_matches_are_candidates|].
  split; [exact scan_of_built_returns|].
  split; [intros pm r c text key value d st; apply visit_candidate_field|].
  split; [intros d r c r' c' t t' row_ row'; apply next_cell_matches_once|].
  exact two_matching_cells.
Qed.

(** The witness of C1: the row [ctx | ctx label | label], in which the
    second and the third cell both have the label with the context on their
    left. *)
Lemma scan_marks_nothing_resolved_witness :
  let key := "row_1_left_ctx_label" in
  stage3_position_aware_template_filling
    (Some [[[["ctx"]; ["ctx label"]; ["label"]]]])
    [(key, "V")] [(key, "the label")]
  = {| returned := true;
       saved := Some [[[["ctx"]; ["ctx label"; "V"]; ["label"; "V"]]]];
       in_memory := [[[["ctx"]; ["ctx label"; "V"]; ["label"; "V"]]]];
       filled := [filled_entry key "V"; filled_entry key "V"];
       skipped := [];
       unfilled := [] |}.
Proof.
  intros key.
  apply (proj2 (proj2 (proj2 (proj2 (proj2 (proj2 (proj2
           scan_marks_nothing_resolved))))))
           [[["ctx"]; ["ctx label"]; ["label"]]] [] [(key, "the label")]
           key "V"
           {| row := 0; col := -1; context := Some "ctx";
              field_name := "label";
              fill_type := same_cell_with_context |}
           0%nat 1%nat 2%nat); try reflexivity.
  - simpl. lia.
  - simpl. lia.
  - intros [|c] H; [reflexivity | lia].
  - intros c H. lia.
  - simpl. intros c H. lia.
Defined.

(** C1 fails on a row with two cells that match one
    [same_cell_with_context] descriptor: both satisfy the predicate when the
    scan reaches them, and both receive the value. *)
Lemma second_matching_cell_is_filled :
  let d := {| row := 0; col := -1; context := Some "a"; field_name := "lab";
              fill_type := same_cell_with_context |} in
  let key := "row_1_left_a_lab" in
  let r := stage3_position_aware_template_filling
             (Some [[[["a"]; ["a lab"]; ["a lab"]]]])
             [(key, "V")] [(key, "label")] in
  _parse_position_key key = Returned (Some d)
  /\ _is_position_match 0 1 "a lab" d [["a"]; ["a lab"]; ["a lab"]]
     = Returned true
  /\ _is_position_match 0 2 "a lab" d [["a"]; ["a lab"; "V"]; ["a lab"]]
     = Returned true
  /\ saved r = Some [[[["a"]; ["a lab"; "V"]; ["a lab"; "V"]]]]
  /\ filled r = [filled_entry key "V"; filled_entry key "V"].
Proof. repeat split. Qed.

(** One field with a [same_cell_with_context] key, on a table in which one
    cell of the row of the key satisfies the match predicate when the scan
    reaches it: the pass appends a paragraph to that cell and changes no
    other cell.  When the library stores the value, the new paragraph is the
    value, line ends read back as newlines, and the field is recorded as
    filled, once; when the write raises, the new paragraph holds what was
    stored before the failure and the field is recorded as skipped, once.
    The pass returns true in both cases. *)
Theorem stage3_one_same_cell_field (table_ : table) (others : document)
    (template_structure : dict string) (key value : string)
    (d : position_info) (r c : nat) :
  PyStr.truthy value = true ->
  _parse_position_key key = Returned (Some d) ->
  row d = Z.of_nat r ->
  fill_type d = same_cell_with_context ->
  (r < List.length table_)%nat ->
  (c < List.length (nth r table_ []))%nat ->
  _is_position_match (Z.of_nat r) (Z.of_nat c)
    (PyStr.strip (cell_text (nth c (nth r table_ []) []))) d
    (nth r table_ []) = Returned true ->
  (forall c', (c' < c)%nat ->
     _is_position_match (Z.of_nat r) (Z.of_nat c')
       (PyStr.strip (cell_text (nth c' (nth r table_ []) []))) d
       (nth r table_ []) = Returned false) ->
  (forall c', (c < c' < List.length (nth r table_ []))%nat ->
     _is_position_match (Z.of_nat r) (Z.of_nat c')
       (PyStr.strip (cell_text (nth c' (nth r table_ []) []))) d
       (list_update (nth r table_ []) c (add_paragraph value))
     = Returned false) ->
  stage3_position_aware_template_filling
    (Some (table_ :: others)) [(key, value)] template_structure
  = (let table' :=
       list_update table_ r
                   (fun row_ => list_update row_ c (add_paragraph value)) in
     let filled_ :=
       if writable value then [filled_entry key value] else [] in
     {| returned := true;
        saved := Some (table' :: others);
        in_memory := table' :: others;
        filled := filled_;
        skipped := if writable value then [] else [skipped_entry key];
        unfilled := _validate_unfilled_fields template_structure filled_ |})
  /\ (writable value = true ->
      forall old,
        add_paragraph value old = (old ++ [line_ends_read_back value])%list).
Proof.
  intros Hv Hd Hr Hf Hrow Hcol Hhere Hbefore Hafter.
  split.
  2:{ intros Hw old. unfold add_paragraph.
      now rewrite (written_of_writable _ Hw). }
  unfold stage3_position_aware_template_filling.
  cbn [build_position_matches]. rewrite Hv, Hd. cbn [rbind dict_set].
  assert (forall k d', dict_get [(key, d)] k = Some d' -> d' = d) as Hget.
  { intros k d'. cbn [dict_get]. destruct (String.eqb key k); congruence. }
  assert (dict_get [(key, d)] key = Some d) as Hkey.
  { cbn [dict_get]. now rewrite String.eqb_refl. }
  unfold scan_table. cbn [rows].
  rewrite (seq_split Hrow), for_each_single.
  2,3: intros r' Hin; apply in_seq in Hin; apply visit_row_other_row;
       intros k d' Hk; apply Hget in Hk; subst d'; lia.
  unfold visit_row, mbind at 1, current_row at 1. cbn [rows].
  rewrite (seq_split Hcol).
  rewrite (@for_each_one_at _ (seq 0 c) _ c _ _
             {| rows := list_update table_ r
                          (fun row_ => list_update row_ c
                                                   (add_paragraph value));
                filled_fields :=
                  if writable value then [filled_entry key value] else [];
                skipped_fields :=
                  if writable value then [] else [skipped_entry key] |}).
  - reflexivity.
  - intros c' Hin. apply in_seq in Hin.
    unfold visit_cell, mbind at 1, current_row at 1. cbn [rows for_each].
    unfold mbind.
    rewrite (@visit_field_no_match [(key, d)] r c' _ key value d _ Hkey);
      [reflexivity|].
    cbn [rows]. apply Hbefore. lia.
  - unfold visit_cell, mbind at 1, current_row at 1. cbn [rows for_each].
    unfold mbind at 1.
    rewrite (@visit_matching_field [(key, d)] r c _ key value d _ Hv Hkey)
      by exact Hhere.
    cbn [rows]. rewrite (@fill_same_cell_eq c _ (Z.of_nat c) value d Hf).
    cbn [ret filled_fields skipped_fields app].
    rewrite (list_update_nth table_ r
               (fun row_ => list_update row_ c (add_paragraph value)) []).
    now destruct (writable value).
  - intros c' Hin. apply in_seq in Hin.
    unfold visit_cell, mbind at 1, current_row at 1. cbn [rows for_each].
    unfold mbind.
    rewrite (@visit_field_no_match [(key, d)] r c' _ key value d _ Hkey);
      [reflexivity|].
    cbn [rows]. rewrite nth_list_update_same by exact Hrow.
    rewrite nth_list_update_other by lia.
    apply Hafter. lia.
Qed.

Lemma stage3_one_same_cell_field_witness :
  stage3_position_aware_template_filling
    (Some [[[["ctx"]; ["label"]]]])
    [("row_1_left_ctx_label", "v")] [("row_1_left_ctx_label", "the label")]
  = {| returned := true;
       saved := Some [[[["ctx"]; ["label"; "v"]]]];
       in_memory := [[[["ctx"]; ["label"; "v"]]]];
       filled := ["row_1_left_ctx_label -> v"];
       skipped := [];
       unfilled := [] |}.
Proof.
  apply (@stage3_one_same_cell_field [[["ctx"]; ["label"]]] []
           [("row_1_left_ctx_label", "the label")] "row_1_left_ctx_label" "v"
           {| row := 0; col := -1; context := Some "ctx";
              field_name := "label";
              fill_type := same_cell_with_context |}
           0 1); try reflexivity.
  - simpl. lia.
  - simpl. lia.
  - intros [|c'] H; [reflexivity | lia].
  - simpl. intros c' H. lia.
Defined.

(** ** The conversion of the template *)

Section ConversionFacts.

Lemma replace_absent (old new s : string) :
  PyStr.contains old s = false -> replace old new s = s.
Proof.
  unfold replace. induction s as [|a s IH]; [reflexivity|].
  rewrite contains_unfold. intros H. apply orb_false_iff in H as [Hp Hc].
  cbn [replace_from]. now rewrite Hp, (IH Hc).
Qed.

Lemma small_remove_gone (w : SmallWorld.world) (p : string) :
  SmallWorld.path_exists (SmallWorld.remove w p) p = false.
Proof.
  unfold SmallWorld.path_exists, SmallWorld.remove.
  induction w as [|q w IH]; cbn; [reflexivity|].
  destruct (String.eqb p q) eqn:E; cbn; [exact IH|]. now rewrite E, IH.
Qed.

Lemma small_rename_there (w : SmallWorld.world) (a b : string) :
  SmallWorld.path_exists (SmallWorld.rename w a b) b = true.
Proof.
  unfold SmallWorld.path_exists, SmallWorld.rename. cbn.
  now rewrite String.eqb_refl.
Qed.

End ConversionFacts.

(** A template path without [.doc] in it (an upper-case extension, say)
    gives itself as the output path, so the conversion removes the template
    before it runs LibreOffice.  When the converter does not create a file
    at that path, the call raises and the template is gone. *)
Theorem conversion_loses_template
    (World : Type) (path_exists : World -> string -> bool)
    (remove : World -> string -> World)
    (rename : World -> string -> string -> World)
    (run : World -> list string -> run_outcome * World)
    (dirname : string -> string)
    (w w1 : World) (doc_path libreoffice_cmd : string) :
  (forall w0 p, path_exists (remove w0 p) p = false) ->
  (forall w0 cmd, path_exists w0 doc_path = false ->
                  path_exists (snd (run w0 cmd)) doc_path = false) ->
  path_exists w doc_path = true ->
  PyStr.contains ".doc" doc_path = false ->
  find_libreoffice run w libreoffice_paths
  = (Done (Some libreoffice_cmd), w1) ->
  exists e w',
    convert_doc_to_docx path_exists remove rename run dirname w doc_path
    = (Threw e, w')
    /\ path_exists w' doc_path = false.
Proof.
  intros Hremove Hrun Hexists Hdoc Hfound.
  unfold convert_doc_to_docx. rewrite Hexists, Hfound. cbn [negb].
  rewrite (@replace_absent ".doc" "_converted.docx" doc_path Hdoc).
  rewrite (@replace_absent ".doc" ".docx" doc_path Hdoc). cbv zeta.
  set (w2 := if path_exists w1 doc_path then remove w1 doc_path else w1).
  assert (path_exists w2 doc_path = false) as H2.
  { unfold w2. destruct (path_exists w1 doc_path) eqn:E; [apply Hremove|exact E]. }
  pose proof (Hrun w2 [libreoffice_cmd; "--headless"; "--convert-to"; "docx";
                       "--outdir"; dirname doc_path; doc_path] H2) as H3.
  destruct (run w2 _) as [[returncode stderr|e] w3]; cbn [snd] in H3.
  - destruct (negb (returncode =? 0)); [eauto|]. rewrite H3. eauto.
  - destruct e; eauto.
Qed.

Lemma conversion_loses_template_witness :
  exists e w',
    convert_doc_to_docx SmallWorld.path_exists SmallWorld.remove
      SmallWorld.rename (SmallWorld.run ["template.docx"]) SmallWorld.dirname
      ["template.DOC"] "template.DOC"
    = (Threw e, w')
    /\ SmallWorld.path_exists w' "template.DOC" = false.
Proof.
  apply (@conversion_loses_template SmallWorld.world SmallWorld.path_exists
           SmallWorld.remove SmallWorld.rename
           (SmallWorld.run ["template.docx"]) SmallWorld.dirname
           ["template.DOC"] ["template.DOC"] "template.DOC"
           "/Applications/LibreOffice.app/Contents/MacOS/soffice").
  - exact small_remove_gone.
  - intros w0 cmd Hw0. unfold SmallWorld.run. cbn [snd].
    destruct (SmallWorld.is_version_probe cmd); exact Hw0.
  - reflexivity.
  - reflexivity.
  - reflexivity.
Defined.

(** When the conversion returns, what it returns is the template path with
    every [.doc] replaced by [_converted.docx], and a file exists at that
    path, a rename putting its target in place. *)
Theorem conversion_result_exists
    (World : Type) (path_exists : World -> string -> bool)
    (remove : World -> string -> World)
    (rename : World -> string -> string -> World)
    (run : World -> list string -> run_outcome * World)
    (dirname : string -> string)
    (w w' : World) (doc_path docx_path : string) :
  (forall w0 a b, path_exists w0 a = true ->
                  path_exists (rename w0 a b) b = true) ->
  convert_doc_to_docx path_exists remove rename run dirname w doc_path
  = (Done docx_path, w') ->
  docx_path = replace ".doc" "_converted.docx" doc_path
  /\ path_exists w' docx_path = true.
Proof.
  intros Hrename. unfold convert_doc_to_docx.
  destruct (negb (path_exists w doc_path)); [discriminate|].
  destruct (find_libreoffice run w libreoffice_paths) as [[[cmd|]|e] w1];
    [|discriminate|destruct e; discriminate].
  cbv zeta.
  destruct (run _ _) as [[returncode stderr|e] w3];
    [|destruct e; discriminate].
  destruct (negb (returncode =? 0)); [discriminate|].
  destruct (path_exists w3 (replace ".doc" ".docx" doc_path)) eqn:Ee;
    [|discriminate].
  intros [= <- <-]. split; [reflexivity|].
  destruct (String.eqb_spec (replace ".doc" ".docx" doc_path)
              (replace ".doc" "_converted.docx" doc_path)) as [E|E];
    cbn [negb].
  - now rewrite <- E.
  - now apply Hrename.
Qed.

Lemma conversion_result_exists_witness :
  "template_converted.docx" = replace ".doc" "_converted.docx" "template.doc"
  /\ SmallWorld.path_exists ["template_converted.docx"]
                            "template_converted.docx" = true.
Proof.
  apply (@conversion_result_exists SmallWorld.world SmallWorld.path_exists
           SmallWorld.remove SmallWorld.rename
           (SmallWorld.run ["template.docx"]) SmallWorld.dirname
           ["template.doc"] ["template_converted.docx"; "template.doc"]
           "template.doc" "template_converted.docx").
  - intros w0 a b _. apply small_rename_there.
  - reflexivity.
Defined.

(** Without LibreOffice, that is when none of the three candidate commands
    can be started, the conversion raises its [RuntimeError] and has touched
    no file: no earlier output is removed. *)
Theorem conversion_without_libreoffice
    (World : Type) (path_exists : World -> string -> bool)
    (remove : World -> string -> World)
    (rename : World -> string -> string -> World)
    (run : World -> list string -> run_outcome * World)
    (dirname : string -> string)
    (w : World) (doc_path : string) :
  (forall w0 path, In path libreoffice_paths ->
                   exists message,
                     run w0 [path; "--version"]
                     = (Failed (FileNotFoundError message), w0)) ->
  path_exists w doc_path = true ->
  convert_doc_to_docx path_exists remove rename run dirname w doc_path
  = (Threw (RuntimeError "LibreOffice未安装或不可用"), w).
Proof.
  intros Hrun Hexists. unfold convert_doc_to_docx. rewrite Hexists.
  cbn [negb].
  assert (find_libreoffice run w libreoffice_paths = (Done None, w)) as ->;
    [|reflexivity].
  assert (forall paths, incl paths libreoffice_paths ->
                        find_libreoffice run w paths = (Done None, w)) as H.
  { induction paths as [|path paths IH]; intros Hincl; [reflexivity|].
    cbn [find_libreoffice].
    destruct (Hrun w path (Hincl path (or_introl eq_refl))) as [m ->].
    apply IH. intros p Hp. apply Hincl. now right. }
  apply H, incl_refl.
Qed.

Lemma conversion_without_libreoffice_witness :
  convert_doc_to_docx SmallWorld.path_exists SmallWorld.remove
    SmallWorld.rename
    (fun (w : SmallWorld.world) (_ : list string) =>
       (Failed (FileNotFoundError "no such file"), w))
    SmallWorld.dirname ["template.doc"; "template_converted.docx"]
    "template.doc"
  = (Threw (RuntimeError "LibreOffice未安装或不可用"),
     ["template.doc"; "template_converted.docx"]).
Proof.
  apply (@conversion_without_libreoffice SmallWorld.world
           SmallWorld.path_exists SmallWorld.remove SmallWorld.rename
           (fun (w : SmallWorld.world) (_ : list string) =>
              (Failed (FileNotFoundError "no such file"), w))
           SmallWorld.dirname).
  - intros w0 path _. now exists "no such file".
  - reflexivity.
Defined.
